(** * Runtime contract checking of [typed.mods.helper]

    A shallow embedding of the call validator ([_check_domain],
    [_check_codomain]), of the display-name resolver, of the domain-hint
    check and of the null-object generator of [typed/mods/helper.py],
    together with the properties that the specification states about them.

    Python objects are modelled by what the helper functions read from them:
    a value by its runtime kind and content, a type descriptor by the
    attributes the helper looks up ([__name__], [__display__], [__bases__],
    [__types__], [check]) and by the answer of [isinstance]. *)

From Stdlib Require Import ZArith QArith Ascii String List Bool Lia Permutation.
From stdpp Require Import base option list strings gmap.

Set Warnings "-register-all".

Local Open Scope Z_scope.
Local Open Scope string_scope.
Local Open Scope list_scope.

(** ** Values *)

(** The runtime values the helper manipulates.  A float is represented by
    the rational number it denotes (finite floats only); a set and a dict by
    the sequence of their elements and of their items. *)
Inductive PyVal : Type :=
| VNone
| VBool (b : bool)
| VInt (z : Z)
| VFloat (q : Q)
| VStr (s : string)
| VList (xs : list PyVal)
| VTuple (xs : list PyVal)
| VSet (xs : list PyVal)
| VFrozenset (xs : list PyVal)
| VDict (kvs : list (PyVal * PyVal)).

(** Induction on values, with the induction hypothesis for every element of a
    container. *)
Section PyVal_nested_induction.
Variable P : PyVal -> Prop.
Hypothesis HNone : P VNone.
Hypothesis HBool : forall b, P (VBool b).
Hypothesis HInt : forall z, P (VInt z).
Hypothesis HFloat : forall q, P (VFloat q).
Hypothesis HStr : forall s, P (VStr s).
Hypothesis HList : forall xs, Forall P xs -> P (VList xs).
Hypothesis HTuple : forall xs, Forall P xs -> P (VTuple xs).
Hypothesis HSet : forall xs, Forall P xs -> P (VSet xs).
Hypothesis HFrozenset : forall xs, Forall P xs -> P (VFrozenset xs).
Hypothesis HDict :
  forall kvs, Forall (fun kv => P (fst kv) /\ P (snd kv)) kvs -> P (VDict kvs).

Fixpoint PyVal_nested_ind (v : PyVal) : P v :=
  let all :=
    fix all (xs : list PyVal) : Forall P xs :=
      match xs with
      | [] => @List.Forall_nil _ P
      | x :: xs' => @List.Forall_cons _ P x xs' (PyVal_nested_ind x) (all xs')
      end in
  match v with
  | VNone => HNone
  | VBool b => HBool b
  | VInt z => HInt z
  | VFloat q => HFloat q
  | VStr s => HStr s
  | VList xs => HList xs (all xs)
  | VTuple xs => HTuple xs (all xs)
  | VSet xs => HSet xs (all xs)
  | VFrozenset xs => HFrozenset xs (all xs)
  | VDict kvs =>
      HDict kvs
        ((fix items (kvs : list (PyVal * PyVal)) :
            Forall (fun kv => P (fst kv) /\ P (snd kv)) kvs :=
            match kvs with
            | [] => @List.Forall_nil _ _
            | (k, v) :: kvs' =>
                @List.Forall_cons _ _ (k, v) kvs'
                  (conj (PyVal_nested_ind k) (PyVal_nested_ind v)) (items kvs')
            end) kvs)
  end.
End PyVal_nested_induction.

(** The number a numeric value denotes: [bool] is a subclass of [int] and
    numbers of different kinds compare by value. *)
Definition num_of (v : PyVal) : option Q :=
  match v with
  | VBool b => Some (if b then 1%Q else 0%Q)
  | VInt z => Some (inject_Z z)
  | VFloat q => Some q
  | _ => None
  end.

(** Equality of sequences, of sets and of dicts, over the equality [eq] of
    their elements: sequences compare element by element, sets and dicts by
    mutual inclusion of their elements and items. *)
Section ContainerEq.
Context {A : Type} (eq : A -> A -> bool).

Fixpoint seq_eqb (xs ys : list A) : bool :=
  match xs, ys with
  | [], [] => true
  | x :: xs', y :: ys' => eq x y && seq_eqb xs' ys'
  | _, _ => false
  end.

Definition set_eqb (xs ys : list A) : bool :=
  forallb (fun x => existsb (eq x) ys) xs
  && forallb (fun y => existsb (fun x => eq x y) xs) ys.

Definition dict_eqb (kvs lws : list (A * A)) : bool :=
  forallb
    (fun kv => existsb (fun lw => eq (fst kv) (fst lw) && eq (snd kv) (snd lw)) lws)
    kvs
  && forallb
       (fun lw => existsb (fun kv => eq (fst kv) (fst lw) && eq (snd kv) (snd lw)) kvs)
       lws.
End ContainerEq.

(** Python's [==] on values. *)
Fixpoint py_eq (a b : PyVal) {struct a} : bool :=
  match a, b with
  | VNone, VNone => true
  | VStr s, VStr t => String.eqb s t
  | VList xs, VList ys => seq_eqb py_eq xs ys
  | VTuple xs, VTuple ys => seq_eqb py_eq xs ys
  | (VSet xs | VFrozenset xs), (VSet ys | VFrozenset ys) => set_eqb py_eq xs ys
  | VDict kvs, VDict lws => dict_eqb py_eq kvs lws
  | (VBool _ | VInt _ | VFloat _), _ =>
      match num_of a, num_of b with
      | Some p, Some q => Qeq_bool p q
      | _, _ => false
      end
  | _, _ => false
  end.

(** Whether a value can be a set element ([hash] does not raise). *)
Fixpoint hashable (v : PyVal) : bool :=
  match v with
  | VList _ | VSet _ | VDict _ => false
  | VTuple xs => forallb hashable xs
  | _ => true
  end.

(** ** Type descriptors *)

(** The identity of a class or of another object used as a descriptor:
    [is] and the [in] test on classes compare identities. *)
Inductive ClassId : Type :=
| c_object | c_int | c_float | c_str | c_bool | c_NoneType
| c_list | c_tuple | c_set | c_frozenset | c_dict
| c_Any                     (* typed.mods.types.base.Any *)
| c_empty                   (* inspect.Signature.empty *)
| f_List | f_Tuple | f_Set | f_Dict   (* typed.mods.factories.base *)
| c_user (n : nat).

#[global] Instance ClassId_eq_dec : EqDecision ClassId.
Proof. solve_decision. Defined.

Definition cid_eqb (a b : ClassId) : bool := bool_decide (a = b).

(** A descriptor, seen through the attribute look-ups of the helper:
    - [d_is_type]: [isinstance(d, type)];
    - [d_name]: [d.__name__] when the attribute exists; [d_repr]: [repr(d)];
    - [d_display]: [d.__display__] when the attribute exists;
    - [d_bases]: [d.__bases__] when the attribute exists;
    - [d_types]: [d.__types__] when the attribute exists (a tuple);
    - [d_check]: [d.check] when the attribute exists;
    - [d_instancecheck v]: the answer of [isinstance(v, d)]. *)
Inductive Descr : Type := mkDescr {
  d_id : ClassId;
  d_is_type : bool;
  d_name : option string;
  d_repr : string;
  d_display : option string;
  d_bases : option (list Descr);
  d_types : option (list Descr);
  d_check : option (PyVal -> bool);
  d_instancecheck : PyVal -> bool
}.

(** [a is b] on descriptors. *)
Definition is_ (a b : Descr) : bool := cid_eqb (d_id a) (d_id b).

(** [t in ts] for a sequence of classes. *)
Definition in_ (t : Descr) (ts : list Descr) : bool := existsb (is_ t) ts.

Definition builtin (id : ClassId) (nm : string) (bases : list Descr)
    (inst : PyVal -> bool) : Descr :=
  {| d_id := id; d_is_type := true; d_name := Some nm;
     d_repr := "<class '" ++ nm ++ "'>"; d_display := None;
     d_bases := Some bases; d_types := None; d_check := None;
     d_instancecheck := inst |}.

Definition object_ : Descr := builtin c_object "object" [] (fun _ => true).
Definition int_ : Descr :=
  builtin c_int "int" [object_]
    (fun v => match v with VInt _ | VBool _ => true | _ => false end).
Definition float_ : Descr :=
  builtin c_float "float" [object_]
    (fun v => match v with VFloat _ => true | _ => false end).
Definition str_ : Descr :=
  builtin c_str "str" [object_]
    (fun v => match v with VStr _ => true | _ => false end).
Definition bool_ : Descr :=
  builtin c_bool "bool" [int_]
    (fun v => match v with VBool _ => true | _ => false end).
Definition NoneType_ : Descr :=
  builtin c_NoneType "NoneType" [object_]
    (fun v => match v with VNone => true | _ => false end).
Definition list_ : Descr :=
  builtin c_list "list" [object_]
    (fun v => match v with VList _ => true | _ => false end).
Definition tuple_ : Descr :=
  builtin c_tuple "tuple" [object_]
    (fun v => match v with VTuple _ => true | _ => false end).
Definition set_ : Descr :=
  builtin c_set "set" [object_]
    (fun v => match v with VSet _ => true | _ => false end).
Definition frozenset_ : Descr :=
  builtin c_frozenset "frozenset" [object_]
    (fun v => match v with VFrozenset _ => true | _ => false end).
Definition dict_ : Descr :=
  builtin c_dict "dict" [object_]
    (fun v => match v with VDict _ => true | _ => false end).

(** [type(v)]. *)
Definition type_of (v : PyVal) : Descr :=
  match v with
  | VNone => NoneType_
  | VBool _ => bool_
  | VInt _ => int_
  | VFloat _ => float_
  | VStr _ => str_
  | VList _ => list_
  | VTuple _ => tuple_
  | VSet _ => set_
  | VFrozenset _ => frozenset_
  | VDict _ => dict_
  end.

(** ** Outcomes *)

(** One line of a diagnostic, with the interpolated data of the f-string
    that builds it. *)
Inductive Line : Type :=
| L_param (name : string)             (* --> '{name}':                        *)
| L_param_check (name : string)       (* --> '{name}': additional check filed. *)
| L_failed_check                      (* --> failed additional type check.    *)
| L_value (v : PyVal)                 (* [value]: / [result_value]:           *)
| L_expected (display : option string)        (* [expected_type]:             *)
| L_expected_union (displays : list string)   (* [expected_type]: 'Union(..)' *)
| L_received (display : option string)        (* [received_type]:             *)
| L_failed (display : option string).         (* [failed_type]:               *)

(** The messages of the [TypeError]s that the helper, or a built-in it
    calls, raises. *)
Inductive TypeErrorMsg : Type :=
| DomainMismatch (fname : string) (lines : list Line)
| CodomainMismatch (fname : string) (lines : list Line)
| MissingHints (fname : string) (missing : list string)
| JoinExpectedStr (i : nat)   (* sequence item i: expected str instance *)
| Unhashable (v : PyVal).     (* unhashable type *)

Inductive Exn : Type :=
| TypeError (m : TypeErrorMsg)
| UnboundLocalError (var : string)
| IndexError
| ValueError.

Inductive Res (A : Type) : Type :=
| Ok (a : A)
| Raise (e : Exn).
Arguments Ok {A} a.
Arguments Raise {A} e.

Definition bind {A B : Type} (r : Res A) (k : A -> Res B) : Res B :=
  match r with
  | Ok a => k a
  | Raise e => Raise e
  end.

Notation "'let*' x ':=' r 'in' k" := (bind r (fun x => k))
  (at level 10, x name, r at level 100, k at level 200).

Definition mapM {A B : Type} (f : A -> Res B) : list A -> Res (list B) :=
  fix go (l : list A) : Res (list B) :=
    match l with
    | [] => Ok []
    | a :: l' => let* b := f a in let* bs := go l' in Ok (b :: bs)
    end.

(** ** Display names *)

Definition upper_ascii (c : ascii) : ascii :=
  let n := nat_of_ascii c in
  if ((97 <=? n) && (n <=? 122))%nat then ascii_of_nat (n - 32) else c.

Definition lower_ascii (c : ascii) : ascii :=
  let n := nat_of_ascii c in
  if ((65 <=? n) && (n <=? 90))%nat then ascii_of_nat (n + 32) else c.

Fixpoint lower (s : string) : string :=
  match s with
  | EmptyString => EmptyString
  | String c s' => String (lower_ascii c) (lower s')
  end.

(** [str.capitalize] on ASCII text. *)
Definition capitalize (s : string) : string :=
  match s with
  | EmptyString => EmptyString
  | String c s' => String (upper_ascii c) (lower s')
  end.

(** [name in names] for text. *)
Definition str_in (name : string) (names : list string) : bool :=
  existsb (String.eqb name) names.

(** [getattr(tp, '__name__', repr(tp))]. *)
Definition name_or_repr (tp : Descr) : string :=
  match d_name tp with
  | Some n => n
  | None => d_repr tp
  end.

(** helper.py, [_get_type_display_name]: falling off the end of the
    function returns [None]. *)
Definition _get_type_display_name (tp : Descr) : option string :=
  match d_display tp with
  | Some disp => Some disp
  | None =>
      let name := name_or_repr tp in
      if str_in name ["int"; "float"; "str"; "bool"] then Some (capitalize name)
      else if String.eqb name "NoneType" then Some "Nill"
      else None
  end.

(** ** Signature extraction: the domain-hint check *)

(** A callable, as reflection shows it: its [__name__], the ordered names
    of [inspect.signature(func).parameters] and the mapping returned by
    [get_type_hints(func)]. *)
Record Func : Type := mkFunc {
  f_name : string;
  f_parameters : list string;
  f_type_hints : gmap string Descr
}.

(** helper.py, [_is_domain_hinted]. *)
Definition _is_domain_hinted (func : Func) : Res bool :=
  let parameters := f_parameters func in
  match parameters with
  | [] => Ok true
  | _ =>
      let type_hints := f_type_hints func in
      let param_hints :=
        map (fun param_name => (param_name, type_hints !! param_name)) parameters in
      let non_hinted_params :=
        map fst
          (List.filter
             (fun ph => match snd ph with None => true | Some _ => false end)
             param_hints) in
      match non_hinted_params with
      | _ :: _ => Raise (TypeError (MissingHints (f_name func) non_hinted_params))
      | [] => Ok true
      end
  end.

(** ** Call validation *)

(** [names.index(name)] *)
Fixpoint index (names : list string) (name : string) : Res nat :=
  match names with
  | [] => Raise ValueError
  | n :: names' =>
      if String.eqb n name then Ok O
      else let* i := index names' name in Ok (S i)
  end.

(** [args[i]] for a non-negative [i] *)
Definition subscript {A : Type} (args : list A) (i : nat) : Res A :=
  match nth_error args i with
  | Some a => Ok a
  | None => Raise IndexError
  end.

(** [hasattr(t, 'check') and not t.check(v)] *)
Definition check_fails (t : Descr) (v : PyVal) : bool :=
  match d_check t with
  | Some chk => negb (chk v)
  | None => false
  end.

(** The constituents when [tp] takes the union branch:
    [isinstance(tp, type) and hasattr(tp, '__types__')
     and isinstance(tp.__types__, tuple)]. *)
Definition union_types_of (tp : Descr) : option (list Descr) :=
  if d_is_type tp then d_types tp else None.

(** The lines that one iteration of the loop of [_check_domain] appends to
    [mismatches]. *)
Definition domain_mismatches (name : string) (expected_type : Descr)
    (actual_value : PyVal) : list Line :=
  let actual_type := type_of actual_value in
  let expected_display_name := _get_type_display_name expected_type in
  let actual_display_name := _get_type_display_name actual_type in
  match union_types_of expected_type with
  | Some types =>
      if negb (existsb (fun t => d_instancecheck t actual_value) types) then
        [L_param name; L_value actual_value;
         L_expected expected_display_name; L_received actual_display_name]
      else
        flat_map
          (fun t =>
             if d_instancecheck t actual_value && check_fails t actual_value then
               [L_param_check name; L_value actual_value;
                L_received actual_display_name;
                L_failed (_get_type_display_name t)]
             else [])
          types
  | None =>
      if negb (d_instancecheck expected_type actual_value) then
        [L_param name; L_value actual_value;
         L_expected expected_display_name; L_received actual_display_name]
      else if check_fails expected_type actual_value then
        [L_value actual_value;
         L_expected expected_display_name; L_received actual_display_name]
      else []
  end.

(** The [for name, expected_type in zip(param_names, expected_domain)] loop,
    threading [mismatches]. *)
Fixpoint domain_loop (param_names : list string) (args : list PyVal)
    (pairs : list (string * Descr)) (mismatches : list Line) : Res (list Line) :=
  match pairs with
  | [] => Ok mismatches
  | (name, expected_type) :: pairs' =>
      let* i := index param_names name in
      let* actual_value := subscript args i in
      domain_loop param_names args pairs'
        (mismatches ++ domain_mismatches name expected_type actual_value)
  end.

(** helper.py, [_check_domain]. *)
Definition _check_domain (func : Func) (param_names : list string)
    (expected_domain actual_domain : list Descr) (args : list PyVal)
    (allow_subclass : bool) : Res unit :=
  let* mismatches :=
    domain_loop param_names args (combine param_names expected_domain) [] in
  match mismatches with
  | _ :: _ => Raise (TypeError (DomainMismatch (f_name func) mismatches))
  | [] => Ok tt
  end.

(** The [for t in union_types] loop of [_check_codomain]: the first
    constituent that matches and whose check fails raises. *)
Fixpoint codomain_union_loop (fname : string)
    (expected_display_name actual_display_name : option string)
    (result : PyVal) (union_types : list Descr) : Res unit :=
  match union_types with
  | [] => Ok tt
  | t :: union_types' =>
      if d_instancecheck t result && check_fails t result then
        Raise (TypeError (CodomainMismatch fname
          [L_failed_check; L_value result;
           L_expected expected_display_name; L_received actual_display_name;
           L_failed (_get_type_display_name t)]))
      else
        codomain_union_loop fname expected_display_name actual_display_name
          result union_types'
  end.

(** [', '.join(names)]: every item has to be text. *)
Fixpoint join_names (i : nat) (names : list (option string)) : Res (list string) :=
  match names with
  | [] => Ok []
  | Some n :: names' => let* ns := join_names (S i) names' in Ok (n :: ns)
  | None :: _ => Raise (TypeError (JoinExpectedStr i))
  end.

(** helper.py, [_check_codomain].  In the nominal branch the message of the
    failed additional check interpolates [_get_type_display_name(t)], and
    [t] is a local of the function that only the union branch binds. *)
Definition _check_codomain (func : Func) (expected_codomain actual_codomain : Descr)
    (result : PyVal) (allow_subclass : bool) : Res unit :=
  if cid_eqb (d_id expected_codomain) c_Any
     || cid_eqb (d_id expected_codomain) c_empty then Ok tt
  else
    let expected_display_name := _get_type_display_name expected_codomain in
    let actual_display_name := _get_type_display_name actual_codomain in
    let mismatch :=
      Raise (TypeError (CodomainMismatch (f_name func)
        [L_value result; L_expected expected_display_name;
         L_received actual_display_name])) in
    match union_types_of expected_codomain with
    | Some union_types =>
        if existsb (fun union_type => d_instancecheck union_type result) union_types
        then
          codomain_union_loop (f_name func) expected_display_name
            actual_display_name result union_types
        else
          let* expected_union_names :=
            join_names 0 (map _get_type_display_name union_types) in
          Raise (TypeError (CodomainMismatch (f_name func)
            [L_value result; L_expected_union expected_union_names;
             L_received actual_display_name]))
    | None =>
        if d_is_type expected_codomain then
          if d_instancecheck expected_codomain result then
            if allow_subclass
               || (negb allow_subclass && is_ actual_codomain expected_codomain)
            then
              if check_fails expected_codomain result then
                Raise (UnboundLocalError "t")
              else Ok tt
            else mismatch
          else mismatch
        else
          if negb (d_instancecheck expected_codomain result) then mismatch
          else Ok tt
    end.

(** ** Null objects *)

(** helper.py, [_builtin_nulls]: the dict literal, keyed by the identity of
    its keys.  [List], [Tuple], [Set] and [Dict] are the factories of
    [typed.mods.factories.base]. *)
Definition _builtin_nulls : list (ClassId * PyVal) :=
  [ (f_Dict, VDict []);
    (c_dict, VDict []);
    (f_Tuple, VTuple []);
    (c_tuple, VTuple []);
    (f_List, VList []);
    (c_list, VList []);
    (f_Set, VSet []);
    (c_set, VSet []);
    (c_frozenset, VFrozenset []);
    (c_str, VStr "");
    (c_int, VInt 0);
    (c_float, VFloat 0);
    (c_bool, VBool false);
    (c_NoneType, VNone) ].

(** [nulls[typ]] when [typ in nulls]. *)
Fixpoint nulls_get (nulls : list (ClassId * PyVal)) (typ : ClassId) : option PyVal :=
  match nulls with
  | [] => None
  | (k, v) :: nulls' => if cid_eqb typ k then Some v else nulls_get nulls' typ
  end.

(** [typ.__name__.startswith(prefix)] when [typ] has a [__name__]. *)
Definition name_startswith (prefix : string) (typ : Descr) : bool :=
  match d_name typ with
  | Some n => String.prefix prefix n
  | None => false
  end.

(** helper.py, [_get_null_object].  Building the one-element set raises
    when the element is not hashable. *)
Fixpoint _get_null_object (typ : Descr) : Res PyVal :=
  let fallback :=
    match nulls_get _builtin_nulls (d_id typ) with
    | Some null => Ok null
    | None => Ok VNone
    end in
  match d_bases typ with
  | Some bases =>
      if in_ list_ bases then
        match d_types typ with
        | Some (t0 :: _) =>
            let* elem_null := _get_null_object t0 in Ok (VList [elem_null])
        | _ => Ok (VList [])
        end
      else if in_ tuple_ bases then
        match d_types typ with
        | Some (t0 :: ts) =>
            if name_startswith "Prod" typ then
              let* nulls := mapM _get_null_object (t0 :: ts) in Ok (VTuple nulls)
            else Ok (VTuple [])
        | _ => Ok (VTuple [])
        end
      else if in_ set_ bases then
        match d_types typ with
        | Some (t0 :: _) =>
            let* elem_null := _get_null_object t0 in
            if hashable elem_null then Ok (VSet [elem_null])
            else Raise (TypeError (Unhashable elem_null))
        | _ => Ok (VSet [])
        end
      else if in_ dict_ bases then
        match d_types typ with
        | Some (vtyp :: _) =>
            let* vnull := _get_null_object vtyp in
            if in_ vtyp [str_] then Ok (VDict [(VStr "", vnull)])
            else if in_ vtyp [int_] then Ok (VDict [(VInt 0, vnull)])
            else if in_ vtyp [float_] then Ok (VDict [(VFloat 0, vnull)])
            else Ok (VDict [(VNone, vnull)])
        | _ => Ok (VDict [])
        end
      else fallback
  | None => fallback
  end.

(** helper.py, [_is_null_of_type]. *)
Definition _is_null_of_type (x : PyVal) (typ : Descr) : Res bool :=
  let* null := _get_null_object typ in
  match nulls_get _builtin_nulls (d_id typ) with
  | Some builtin_null => Ok (py_eq x builtin_null)
  | None =>
      match d_bases typ with
      | Some bases =>
          let* base := subscript bases 0 in
          Ok (py_eq x null && d_instancecheck base x)
      | None => Ok (py_eq x null)
      end
  end.

(** ** Specification-side predicates *)

(** The names for which the resolver has a built-in display name. *)
Definition scalar_names : list string := ["int"; "float"; "str"; "bool"; "NoneType"].

(** The built-in scalar descriptors. *)
Definition scalar_descriptors : list Descr := [str_; int_; float_; bool_; NoneType_].

(** What the two checks do with a union: some constituent matches the value
    nominally, and no constituent that matches it has a failing check. *)
Definition union_accepts (types : list Descr) (x : PyVal) : bool :=
  existsb (fun t => d_instancecheck t x) types
  && forallb (fun t => negb (d_instancecheck t x && check_fails t x)) types.

(** A constituent accepts a value fully: nominal match and, when it has a
    check, the check passes. *)
Definition accepts (t : Descr) (x : PyVal) : bool :=
  d_instancecheck t x && negb (check_fails t x).

(** One of the container classes is among the bases. *)
Definition container_base (bases : list Descr) : bool :=
  in_ list_ bases || in_ tuple_ bases || in_ set_ bases || in_ dict_ bases.

(** The key of the one-item dict that [_get_null_object] builds. *)
Definition key_placeholder (vtyp : Descr) : PyVal :=
  if is_ vtyp str_ then VStr ""
  else if is_ vtyp int_ then VInt 0
  else if is_ vtyp float_ then VFloat 0
  else VNone.

(** The parameter names that a domain diagnostic mentions. *)
Definition named_params (lines : list Line) : list string :=
  flat_map
    (fun l =>
       match l with
       | L_param n | L_param_check n => [n]
       | _ => []
       end)
    lines.

(** The parameters without a hint, in declaration order. *)
Definition unhinted (func : Func) : list string :=
  List.filter
    (fun p => match f_type_hints func !! p with None => true | Some _ => false end)
    (f_parameters func).

(** [args[param_names.index(name)]] *)
Definition lookup_arg (param_names : list string) (args : list PyVal)
    (name : string) : Res PyVal :=
  let* i := index param_names name in subscript args i.

(** ** Example descriptors and callables *)

(** A class created with the name [nm], the bases [bases] and, when given,
    the attributes [__display__], [__types__] and [check]; its metaclass
    answers [isinstance] by [inst]. *)
Definition mk_class (n : nat) (nm : string) (display : option string)
    (bases : list Descr) (types : option (list Descr))
    (chk : option (PyVal -> bool)) (inst : PyVal -> bool) : Descr :=
  {| d_id := c_user n; d_is_type := true; d_name := Some nm;
     d_repr := "<class '" ++ nm ++ "'>"; d_display := display;
     d_bases := Some bases; d_types := types; d_check := chk;
     d_instancecheck := inst |}.

(** A class carrying [__types__], as the checks recognise a union; it
    matches what some constituent matches. *)
Definition union_class (n : nat) (types : list Descr) : Descr :=
  mk_class n "Union" None [object_] (Some types) None
    (fun v => existsb (fun t => d_instancecheck t v) types).

(** The integers, refined by the check [0 < x]. *)
Definition Pos : Descr :=
  mk_class 1 "Pos" (Some "Pos") [int_] None
    (Some (fun v => match v with VInt z => (0 <? z)%Z | _ => false end))
    (d_instancecheck int_).

(** [class MyInt(int): pass]: no built-in value is an instance of it. *)
Definition MyInt : Descr :=
  mk_class 2 "MyInt" None [int_] None None (fun _ => false).

Definition IntOrStr : Descr := union_class 3 [int_; str_].
Definition IntOrList : Descr := union_class 4 [int_; list_].
Definition IntOrPos : Descr := union_class 5 [int_; Pos].
Definition PosOrInt : Descr := union_class 6 [Pos; int_].

(** A tuple subclass named [Prod] over (int, str, bool). *)
Definition ProdIntStrBool : Descr :=
  mk_class 7 "Prod" None [tuple_] (Some [int_; str_; bool_]) None
    (fun v =>
       match v with
       | VTuple [a; b; c] =>
           d_instancecheck int_ a && d_instancecheck str_ b && d_instancecheck bool_ c
       | _ => false
       end).

(** Dict subclasses whose [__types__] are (str, int) and (int,). *)
Definition DictStrInt : Descr :=
  mk_class 8 "Dict" None [dict_] (Some [str_; int_]) None (d_instancecheck dict_).
Definition DictInt : Descr :=
  mk_class 9 "Dict" None [dict_] (Some [int_]) None (d_instancecheck dict_).

(** A list subclass over int, and a set subclass over that list class. *)
Definition ListInt : Descr :=
  mk_class 10 "List" None [list_] (Some [int_]) None (d_instancecheck list_).
Definition SetListInt : Descr :=
  mk_class 11 "Set" None [set_] (Some [ListInt]) None (d_instancecheck set_).

(** [def f(a: Pos, b: Pos) -> Pos] *)
Definition f_pos_pos : Func :=
  mkFunc "f" ["a"; "b"] (<["a" := Pos]> (<["b" := Pos]> (<["return" := Pos]> ∅))).

(** [def g(a: int, b) -> int]: [b] has no hint. *)
Definition g_unhinted : Func :=
  mkFunc "g" ["a"; "b"] (<["a" := int_]> (<["return" := int_]> ∅)).

(** [def h() -> int] *)
Definition h_nullary : Func :=
  mkFunc "h" [] (<["return" := int_]> ∅).

(** ** The rest of the helper: outcomes *)

(** The errors of the functions below that [Exn] does not list, each with the
    place that raises it. *)
Inductive PyError : Type :=
| Unsupported_in_flat          (* _flat: TypeError, Unsupported type in _flat *)
| Not_all_types                (* _flat: TypeError, All arguments must be types. *)
| Missing_return_hint (fname : string)   (* _is_codomain_hinted: TypeError *)
| Attr_argument.               (* Attr: TypeError, attributes must be a string or a list *)

Inductive Outcome (A : Type) : Type :=
| Returns (a : A)
| Raises (e : PyError).
Arguments Returns {A} a.
Arguments Raises {A} e.

(** A [for] loop over [items] whose body [body] updates a state or raises. *)
Definition for_each {A S : Type} (body : A -> S -> Outcome S) :
    list A -> S -> Outcome S :=
  fix go (items : list A) (state : S) : Outcome S :=
    match items with
    | [] => Returns state
    | item :: items' =>
        match body item state with
        | Returns state' => go items' state'
        | Raises e => Raises e
        end
    end.

(** ** Flattening the arguments of a factory *)

(** An argument of [_flat]: a class or another descriptor object, a list or
    a tuple of arguments, or any other object. *)
Inductive Item : Type :=
| IObj (d : Descr)
| ISeq (items : list Item)
| IOther.

(** helper.py, the inner function [_flatten] of [_flat], threading the
    list [flat_list] that it appends to. *)
Fixpoint _flatten (item : Item) (flat_list : list Descr) : Outcome (list Descr) :=
  match item with
  | IObj d =>
      if d_is_type d then Returns (flat_list ++ [d])
      else Raises Unsupported_in_flat
  | ISeq items => for_each _flatten items flat_list
  | IOther => Raises Unsupported_in_flat
  end.

(** helper.py, [_flat]. *)
Definition _flat (types : list Item) : Outcome (list Descr * bool) :=
  match types with
  | [] => Returns ([], false)
  | _ =>
      let is_flexible := true in
      match for_each _flatten types [] with
      | Returns flat_list =>
          if negb (forallb d_is_type flat_list) then Raises Not_all_types
          else Returns (flat_list, is_flexible)
      | Raises e => Raises e
      end
  end.

(** The leaves of an argument, left to right: [Some d] for a class [d],
    [None] for an object that is neither a class nor a list or tuple. *)
Fixpoint leaves (item : Item) : list (option Descr) :=
  match item with
  | IObj d => if d_is_type d then [Some d] else [None]
  | ISeq items => flat_map leaves items
  | IOther => [None]
  end.

(** ** Callables and their hints *)

(** [inspect.Parameter.kind] *)
Inductive ParamKind : Type :=
| POSITIONAL_ONLY | POSITIONAL_OR_KEYWORD | VAR_POSITIONAL
| KEYWORD_ONLY | VAR_KEYWORD.

(** A callable, seen through what the signature extractor reads:
    - [c_name]: [__name__];
    - [c_signature]: the parameters of [inspect.signature], in order, with
      their kinds; [None] when [inspect.signature] raises [ValueError];
    - [c_type_hints]: [get_type_hints];
    - [c_wrapped], [c_func]: the attributes [__wrapped__] and [func], when
      they exist;
    - [c_composed_domain_hint], [c_composed_codomain_hint]: the attributes
      [_composed_domain_hint] and [_composed_codomain_hint], when they exist.
    Chains of [__wrapped__] and [func] are finite. *)
Inductive Callable : Type := mkCallable {
  c_name : string;
  c_signature : option (list (string * ParamKind));
  c_type_hints : gmap string Descr;
  c_wrapped : option Callable;
  c_func : option Callable;
  c_composed_domain_hint : option (list Descr);
  c_composed_codomain_hint : option Descr
}.

(** [inspect.Signature.empty] *)
Definition empty_ : Descr := builtin c_empty "_empty" [object_] (fun _ => false).

(** helper.py, [_is_codomain_hinted]; the values of [get_type_hints] are
    never [None]. *)
Definition _is_codomain_hinted (func : Func) : Outcome bool :=
  let type_hints := f_type_hints func in
  match type_hints !! "return" with
  | None => Raises (Missing_return_hint (f_name func))
  | Some _ => Returns true
  end.

(** The [while hasattr(func, '__wrapped__')] loop of [_get_original_func]. *)
Fixpoint unwrap_wrapped (func : Callable) : Callable :=
  match c_wrapped func with
  | Some wrapped => unwrap_wrapped wrapped
  | None => func
  end.

(** helper.py, [_get_original_func]; an iteration of the loop is a
    recursive call (see [_get_original_func_loop]). *)
Fixpoint _get_original_func (func : Callable) : Callable :=
  match c_wrapped func with
  | Some wrapped => _get_original_func wrapped
  | None =>
      match c_func func with
      | Some inner => _get_original_func inner
      | None => func
      end
  end.

(** The kinds of parameter that [_hinted_domain] keeps. *)
Definition kept_kind (kind : ParamKind) : bool :=
  match kind with
  | POSITIONAL_OR_KEYWORD | POSITIONAL_ONLY | KEYWORD_ONLY => true
  | VAR_POSITIONAL | VAR_KEYWORD => false
  end.

(** [type_hints.get(name, inspect.Signature.empty)] *)
Definition hint_or_empty (type_hints : gmap string Descr) (name : string) : Descr :=
  match type_hints !! name with
  | Some hint => hint
  | None => empty_
  end.

(** helper.py, [_hinted_domain]. *)
Definition _hinted_domain (func : Callable) : list Descr :=
  let original_func := _get_original_func func in
  let type_hints := c_type_hints original_func in
  match c_composed_domain_hint original_func with
  | Some composed => composed
  | None =>
      match c_signature original_func with
      | Some parameters =>
          flat_map
            (fun param =>
               if kept_kind (snd param) then
                 let hint := hint_or_empty type_hints (fst param) in
                 if negb (is_ hint empty_) then [hint] else []
               else [])
            parameters
      | None => []
      end
  end.

(** helper.py, [_hinted_codomain]. *)
Definition _hinted_codomain (func : Callable) : Descr :=
  let original_func := _get_original_func func in
  let type_hints := c_type_hints original_func in
  match c_composed_codomain_hint original_func with
  | Some composed => composed
  | None =>
      match c_signature original_func with
      | Some _ => hint_or_empty type_hints "return"
      | None => empty_
      end
  end.

(** What [_is_domain_hinted] and [_is_codomain_hinted] read of a callable
    whose signature has the parameters [parameters]. *)
Definition reflected (func : Callable) (parameters : list (string * ParamKind)) : Func :=
  mkFunc (c_name func) (map fst parameters) (c_type_hints func).

(** ** The wildcard metaclass *)

(** helper.py, [__Any]: a class created by this metaclass, with the
    attributes given; its [__instancecheck__] answers [True]. *)
Definition Any_metaclass_class (id : ClassId) (nm : string) (display : option string)
    (bases : list Descr) (types : option (list Descr))
    (chk : option (PyVal -> bool)) : Descr :=
  {| d_id := id; d_is_type := true; d_name := Some nm;
     d_repr := "<class '" ++ nm ++ "'>"; d_display := display;
     d_bases := Some bases; d_types := types; d_check := chk;
     d_instancecheck := fun _ => true |}.

(** ** Structural descriptors (attr.py) *)

(** The argument of [Attr]: a string, a list of strings, or anything else. *)
Inductive AttrArg : Type :=
| A_str (s : string)
| A_list (l : list string)
| A_other.

Fixpoint lstrip_underscores (cs : list ascii) : list ascii :=
  match cs with
  | c :: cs' => if Ascii.eqb c "_"%char then lstrip_underscores cs' else cs
  | [] => []
  end.

(** [s.strip("_")] *)
Definition strip_underscores (s : string) : string :=
  string_of_list_ascii
    (rev (lstrip_underscores (rev (lstrip_underscores (list_ascii_of_string s))))).

(** attr.py, the name of the class that [Attr] returns. *)
Definition attr_type_name (attributes : list string) : string :=
  "Attr" ++ String.concat "_and_"
              (map (fun attr => capitalize (strip_underscores attr)) attributes).

Section Structural.
(** [hasattr(instance, attr)] on values. *)
Variable hasattr : PyVal -> string -> bool.

(** attr.py, [__Attr.__instancecheck__] for a class whose
    [_required_attributes] is [required]; [None] when the class has no such
    attribute. *)
Definition Attr_instancecheck (required : option (list string)) (instance : PyVal) : bool :=
  match required with
  | Some (attr :: attrs) => forallb (hasattr instance) (attr :: attrs)
  | Some [] | None => true
  end.

(** attr.py, the class [Attr__] local to a call of [Attr]. *)
Definition Attr__ (n : nat) : Descr :=
  {| d_id := c_user n; d_is_type := true; d_name := Some "Attr__";
     d_repr := "<class 'Attr__'>"; d_display := None;
     d_bases := Some [object_]; d_types := None; d_check := None;
     d_instancecheck := Attr_instancecheck None |}.

(** attr.py, [Attr]; the two classes it creates get the identities
    [c_user n] and [c_user (S n)]. *)
Definition Attr (n : nat) (attributes : AttrArg) : Outcome Descr :=
  let build (attributes : list string) : Descr :=
    let type_name := attr_type_name attributes in
    {| d_id := c_user (S n); d_is_type := true; d_name := Some type_name;
       d_repr := "<class '" ++ type_name ++ "'>"; d_display := None;
       d_bases := Some [Attr__ n]; d_types := None; d_check := None;
       d_instancecheck := Attr_instancecheck (Some attributes) |} in
  match attributes with
  | A_str s => Returns (build [s])
  | A_list l => Returns (build l)
  | A_other => Raises Attr_argument
  end.
End Structural.

(** ** Induction principles for the nested types *)

(** Induction on the arguments of [_flat], with the hypothesis for every
    element of a sequence. *)
Section Item_nested_induction.
Variable P : Item -> Prop.
Hypothesis HObj : forall d, P (IObj d).
Hypothesis HSeq : forall items, Forall P items -> P (ISeq items).
Hypothesis HOther : P IOther.

Fixpoint Item_nested_ind (item : Item) : P item :=
  match item with
  | IObj d => HObj d
  | ISeq items =>
      HSeq items
        ((fix all (items : list Item) : Forall P items :=
            match items with
            | [] => @List.Forall_nil _ P
            | it :: items' =>
                @List.Forall_cons _ P it items' (Item_nested_ind it) (all items')
            end) items)
  | IOther => HOther
  end.
End Item_nested_induction.

(** Induction on callables along [__wrapped__] and [func]. *)
Section Callable_nested_induction.
Variable P : Callable -> Prop.
Hypothesis Hstep :
  forall c,
    (forall w, c_wrapped c = Some w -> P w) ->
    (forall i, c_func c = Some i -> P i) ->
    P c.

Fixpoint Callable_nested_ind (c : Callable) : P c :=
  match c as c0 return P c0 with
  | mkCallable nm sig hints wrapped inner cd cc =>
      Hstep (mkCallable nm sig hints wrapped inner cd cc)
        (match wrapped as o
               return forall w, o = Some w -> P w with
         | Some w' =>
             fun w E =>
               match E in _ = s return match s with Some x => P x | None => True end
               with eq_refl => Callable_nested_ind w' end
         | None => fun w E => match E in _ = s return match s with Some _ => P w | None => True end with eq_refl => I end
         end)
        (match inner as o
               return forall i, o = Some i -> P i with
         | Some i' =>
             fun i E =>
               match E in _ = s return match s with Some x => P x | None => True end
               with eq_refl => Callable_nested_ind i' end
         | None => fun i E => match E in _ = s return match s with Some _ => P i | None => True end with eq_refl => I end
         end)
  end.
End Callable_nested_induction.

(** Induction on descriptors along [__types__]. *)
Section Descr_types_induction.
Variable P : Descr -> Prop.
Hypothesis Hstep :
  forall d, (forall ts, d_types d = Some ts -> Forall P ts) -> P d.

Fixpoint Descr_types_ind (d : Descr) : P d :=
  match d as d0 return P d0 with
  | mkDescr id ist nm rp dsp bases types chk inst =>
      Hstep (mkDescr id ist nm rp dsp bases types chk inst)
        (match types as o return forall ts, o = Some ts -> Forall P ts with
         | Some ts' =>
             fun ts E =>
               match E in _ = s
                     return match s with Some x => Forall P x | None => True end
               with
               | eq_refl =>
                   (fix all (l : list Descr) : Forall P l :=
                      match l with
                      | [] => @List.Forall_nil _ P
                      | t :: l' =>
                          @List.Forall_cons _ P t l' (Descr_types_ind t) (all l')
                      end) ts'
               end
         | None =>
             fun ts E =>
               match E in _ = s
                     return match s with Some _ => Forall P ts | None => True end
               with eq_refl => I end
         end)
  end.
End Descr_types_induction.

(** [typ] is a class, and so is every descriptor of its [__types__], at
    every level of nesting: the descriptors that the factories build.  A
    class is hashable, and its [__types__], when it has the attribute, is a
    tuple. *)
Fixpoint all_classes (typ : Descr) : bool :=
  d_is_type typ
  && match d_types typ with
     | Some types => forallb all_classes types
     | None => true
     end.

(** The classes among the leaves, when every leaf is a class. *)
Fixpoint collect (l : list (option Descr)) : option (list Descr) :=
  match l with
  | [] => Some []
  | Some d :: l' =>
      match collect l' with
      | Some ds => Some (d :: ds)
      | None => None
      end
  | None :: _ => None
  end.

(** ** Example callables *)

(** [def f(a: int, b: str) -> bool] *)
Definition plain_f : Callable :=
  mkCallable "f"
    (Some [("a", POSITIONAL_OR_KEYWORD); ("b", POSITIONAL_OR_KEYWORD)])
    (<["a" := int_]> (<["b" := str_]> (<["return" := bool_]> ∅)))
    None None None None.

(** A decorated [f]: the wrapper takes anything and keeps [__wrapped__]. *)
Definition wrapped_f : Callable :=
  mkCallable "wrapper"
    (Some [("args", VAR_POSITIONAL); ("kwargs", VAR_KEYWORD)])
    ∅ (Some plain_f) None None None.

(** A callable [g] with the two variadic parameters [xs: int] and
    [kw: str], and no return hint. *)
Definition variadic_g : Callable :=
  mkCallable "g"
    (Some [("xs", VAR_POSITIONAL); ("kw", VAR_KEYWORD)])
    (<["xs" := int_]> (<["kw" := str_]> ∅))
    None None None None.

(** * Properties *)

(** ** Basic facts *)

Lemma str_in_In (name : string) (names : list string) :
  str_in name names = true <-> In name names.
Proof.
  unfold str_in. rewrite existsb_exists. split.
  - intros [n [Hin Heq]]. apply String.eqb_eq in Heq. now subst.
  - intros Hin. exists name. split; [assumption | apply String.eqb_refl].
Qed.

Lemma cid_eqb_eq (a b : ClassId) : cid_eqb a b = true <-> a = b.
Proof. unfold cid_eqb. apply bool_decide_eq_true. Qed.

Lemma cid_eqb_refl (a : ClassId) : cid_eqb a a = true.
Proof. now apply cid_eqb_eq. Qed.

Lemma bind_Ok {A B : Type} (r : Res A) (k : A -> Res B) (b : B) :
  bind r k = Ok b <-> exists a, r = Ok a /\ k a = Ok b.
Proof.
  destruct r as [a | e]; simpl; split.
  - intros H. now exists a.
  - now intros [a' [[= ->] H]].
  - discriminate.
  - now intros [a' [H _]].
Qed.

(** ** The display-name resolver *)

Lemma display_name_explicit (tp : Descr) (disp : string) :
  d_display tp = Some disp -> _get_type_display_name tp = Some disp.
Proof. intros H. unfold _get_type_display_name. now rewrite H. Qed.

Lemma display_name_absent (tp : Descr) :
  d_display tp = None -> ~ In (name_or_repr tp) scalar_names ->
  _get_type_display_name tp = None.
Proof.
  intros Hd Hn. unfold _get_type_display_name. rewrite Hd.
  destruct (str_in _ _) eqn:Hs.
  - apply str_in_In in Hs. exfalso. apply Hn. unfold scalar_names.
    simpl in Hs |- *. tauto.
  - destruct (String.eqb _ _) eqn:He; [| reflexivity].
    apply String.eqb_eq in He. exfalso. apply Hn. rewrite He.
    unfold scalar_names. simpl. tauto.
Qed.

Lemma display_name_scalar (tp : Descr) :
  d_display tp = None -> In (name_or_repr tp) scalar_names ->
  exists s, _get_type_display_name tp = Some s.
Proof.
  intros Hd Hn. unfold _get_type_display_name. rewrite Hd.
  destruct (str_in _ _) eqn:Hs; [eauto |].
  destruct (String.eqb _ _) eqn:He; [eauto |]. exfalso.
  unfold scalar_names in Hn. simpl in Hn.
  destruct Hn as [H | [H | [H | [H | [H | []]]]]];
    try (rewrite <- H in Hs; discriminate Hs).
  rewrite <- H in He. discriminate He.
Qed.

(** C10: the display-name resolver returns a name exactly for the types that
    carry [__display__] or whose canonical name is one of int, float, str,
    bool and NoneType; for every other type, such as [list], [dict] or a
    user-defined class without [__display__], it returns the absence marker,
    and the diagnostic of a mismatch against such a type then carries the
    absence marker as its expected display name. *)
Theorem display_name_only_for_displayed_or_scalar :
  (forall tp : Descr,
      (exists s, _get_type_display_name tp = Some s) <->
      ((exists disp, d_display tp = Some disp)
       \/ In (name_or_repr tp) scalar_names))
  /\ (forall tp : Descr,
         _get_type_display_name tp = None <->
         (d_display tp = None /\ ~ In (name_or_repr tp) scalar_names))
  /\ _get_type_display_name list_ = None
  /\ _get_type_display_name dict_ = None
  /\ _get_type_display_name MyInt = None
  /\ (forall (name : string) (v : Z),
         domain_mismatches name list_ (VInt v)
         = [L_param name; L_value (VInt v); L_expected None;
            L_received (Some "Int")]).
Proof.
  assert (Hnone : forall tp : Descr,
             _get_type_display_name tp = None <->
             (d_display tp = None /\ ~ In (name_or_repr tp) scalar_names)).
  { intros tp. split.
    - intros H. destruct (d_display tp) as [disp |] eqn:Hd.
      + rewrite (display_name_explicit tp disp Hd) in H. discriminate.
      + split; [reflexivity |]. intros Hin.
        destruct (display_name_scalar tp Hd Hin) as [s Hs]. congruence.
    - intros [Hd Hn]. now apply display_name_absent. }
  split; [| split; [exact Hnone | repeat split; reflexivity]].
  intros tp. split.
  - intros [s Hs]. destruct (d_display tp) as [disp |] eqn:Hd; [eauto |].
    right. destruct (in_dec String.string_dec (name_or_repr tp) scalar_names)
      as [Hin | Hnin]; [assumption |].
    rewrite (display_name_absent tp Hd Hnin) in Hs. discriminate.
  - intros [[disp Hd] | Hin].
    + exists disp. now apply display_name_explicit.
    + destruct (d_display tp) as [disp |] eqn:Hd.
      * exists disp. now apply display_name_explicit.
      * now apply display_name_scalar.
Qed.

(** ** The domain-hint check *)

Lemma non_hinted_params_filter (hints : gmap string Descr) (params : list string) :
  map fst
    (List.filter
       (fun ph : string * option Descr =>
          match snd ph with None => true | Some _ => false end)
       (map (fun param_name => (param_name, hints !! param_name)) params))
  = List.filter
      (fun p => match hints !! p with None => true | Some _ => false end) params.
Proof.
  induction params as [| p params IH]; simpl; [reflexivity |].
  destruct (hints !! p); simpl; now rewrite IH.
Qed.

Lemma _is_domain_hinted_unhinted (func : Func) :
  _is_domain_hinted func =
  match unhinted func with
  | [] => Ok true
  | missing => Raise (TypeError (MissingHints (f_name func) missing))
  end.
Proof.
  unfold _is_domain_hinted, unhinted.
  destruct (f_parameters func) as [| p params] eqn:Hp; [reflexivity |].
  rewrite non_hinted_params_filter.
  now destruct (List.filter _ (p :: params)).
Qed.

Lemma unhinted_In (func : Func) (p : string) :
  In p (unhinted func) <->
  In p (f_parameters func) /\ f_type_hints func !! p = None.
Proof.
  unfold unhinted. rewrite filter_In.
  destruct (f_type_hints func !! p); intuition congruence.
Qed.

(** C8: the domain-hint check fails, with the error that lists the
    parameters without a hint, if and only if the callable has at least one
    parameter and some parameter lacks a declared descriptor; otherwise it
    returns true, and a callable with no parameter always passes. *)
Theorem domain_hint_check_fails_iff :
  forall func : Func,
    ((exists e, _is_domain_hinted func = Raise e) <->
     (f_parameters func <> []
      /\ exists p, In p (f_parameters func) /\ f_type_hints func !! p = None))
    /\ (forall e, _is_domain_hinted func = Raise e ->
          e = TypeError (MissingHints (f_name func) (unhinted func)))
    /\ ((forall p, In p (f_parameters func) -> f_type_hints func !! p <> None) ->
          _is_domain_hinted func = Ok true)
    /\ (f_parameters func = [] -> _is_domain_hinted func = Ok true).
Proof.
  intros func. rewrite _is_domain_hinted_unhinted.
  split; [split |]; [| | split; [| split]].
  - intros [e He]. destruct (unhinted func) as [| p l] eqn:Hu; [discriminate |].
    assert (Hin : In p (unhinted func)) by (rewrite Hu; now left).
    apply unhinted_In in Hin. destruct Hin as [Hin Hnone]. split.
    + destruct (f_parameters func); [destruct Hin | discriminate].
    + now exists p.
  - intros [_ [p Hp]]. apply unhinted_In in Hp.
    destruct (unhinted func) as [| q l]; [destruct Hp | eauto].
  - intros e He. destruct (unhinted func); [discriminate |]. now injection He as <-.
  - intros Hall. destruct (unhinted func) as [| p l] eqn:Hu; [reflexivity |].
    assert (Hin : In p (unhinted func)) by (rewrite Hu; now left).
    apply unhinted_In in Hin. destruct Hin as [Hin Hnone].
    now destruct (Hall p Hin).
  - intros Hnil. unfold unhinted. now rewrite Hnil.
Qed.

(** The check on the three example callables. *)
Example domain_hint_check_examples :
  _is_domain_hinted f_pos_pos = Ok true
  /\ _is_domain_hinted g_unhinted = Raise (TypeError (MissingHints "g" ["b"]))
  /\ _is_domain_hinted h_nullary = Ok true.
Proof. repeat split; vm_compute; reflexivity. Qed.

(** ** Equality of values *)

Lemma seq_eqb_refl {A : Type} (eq : A -> A -> bool) (xs : list A) :
  Forall (fun x => eq x x = true) xs -> seq_eqb eq xs xs = true.
Proof.
  induction 1 as [| x xs Hx _ IH]; simpl; [reflexivity |].
  now rewrite Hx, IH.
Qed.

Lemma set_eqb_refl {A : Type} (eq : A -> A -> bool) (xs : list A) :
  Forall (fun x => eq x x = true) xs -> set_eqb eq xs xs = true.
Proof.
  intros H. rewrite List.Forall_forall in H. unfold set_eqb.
  apply andb_true_intro. split; apply forallb_forall; intros x Hx;
    apply existsb_exists; exists x; (split; [assumption | now apply H]).
Qed.

Lemma dict_eqb_refl {A : Type} (eq : A -> A -> bool) (kvs : list (A * A)) :
  Forall (fun kv => eq (fst kv) (fst kv) = true /\ eq (snd kv) (snd kv) = true) kvs ->
  dict_eqb eq kvs kvs = true.
Proof.
  intros H. rewrite List.Forall_forall in H. unfold dict_eqb.
  apply andb_true_intro. split; apply forallb_forall; intros kv Hkv;
    apply existsb_exists; exists kv; (split; [assumption |]);
    destruct (H kv Hkv) as [Hk Hv]; now rewrite Hk, Hv.
Qed.

Lemma Qeq_bool_refl' (q : Q) : Qeq_bool q q = true.
Proof. apply Qeq_bool_iff. reflexivity. Qed.

(** [v == v] holds for every value of the model. *)
Lemma py_eq_refl (v : PyVal) : py_eq v v = true.
Proof.
  induction v using PyVal_nested_ind; simpl.
  - reflexivity.
  - apply Qeq_bool_refl'.
  - apply Qeq_bool_refl'.
  - apply Qeq_bool_refl'.
  - apply String.eqb_refl.
  - now apply seq_eqb_refl.
  - now apply seq_eqb_refl.
  - now apply set_eqb_refl.
  - now apply set_eqb_refl.
  - now apply dict_eqb_refl.
Qed.

(** ** Null objects *)

(** Unfolds [_get_null_object] on a descriptor given by its attributes. *)
Ltac unfold_null typ :=
  destruct typ as [tid tis tnm trp tdsp tbases ttypes tchk tinst];
  cbn [_get_null_object d_bases d_types d_id d_name name_startswith] in *.

Lemma container_base_false (bases : list Descr) :
  container_base bases = false ->
  in_ list_ bases = false /\ in_ tuple_ bases = false
  /\ in_ set_ bases = false /\ in_ dict_ bases = false.
Proof.
  unfold container_base. intros H.
  repeat (apply orb_false_elim in H; destruct H as [H ?]). auto.
Qed.

(** Without a container class among the bases, the null object is the
    built-in one, or [None]. *)
Lemma null_of_fallback (typ : Descr) :
  (forall bases, d_bases typ = Some bases -> container_base bases = false) ->
  _get_null_object typ =
  Ok (match nulls_get _builtin_nulls (d_id typ) with
      | Some null => null
      | None => VNone
      end).
Proof.
  intros H. unfold_null typ. destruct tbases as [bases |].
  - destruct (container_base_false bases (H bases eq_refl)) as (Hl & Ht & Hs & Hd).
    rewrite Hl, Ht, Hs, Hd. now destruct (nulls_get _ _).
  - now destruct (nulls_get _ _).
Qed.

(** The null object of a descriptor that derives from a container class is a
    container of that kind. *)
Lemma null_of_container_kind (typ : Descr) (bases : list Descr) (null : PyVal) :
  d_bases typ = Some bases -> container_base bases = true ->
  _get_null_object typ = Ok null ->
  if in_ list_ bases then d_instancecheck list_ null = true
  else if in_ tuple_ bases then d_instancecheck tuple_ null = true
  else if in_ set_ bases then d_instancecheck set_ null = true
  else d_instancecheck dict_ null = true.
Proof.
  intros Hb Hc Hn. unfold_null typ. subst tbases.
  unfold container_base in Hc.
  destruct (in_ list_ bases).
  { destruct ttypes as [[| t0 ts] |]; try (now injection Hn as <-).
    destruct (_get_null_object t0); cbn [bind] in Hn;
      [now injection Hn as <- | discriminate]. }
  destruct (in_ tuple_ bases).
  { destruct ttypes as [[| t0 ts] |]; try (now injection Hn as <-).
    destruct (name_startswith _ _); [| now injection Hn as <-].
    destruct (mapM _ _); cbn [bind] in Hn;
      [now injection Hn as <- | discriminate]. }
  destruct (in_ set_ bases).
  { destruct ttypes as [[| t0 ts] |]; try (now injection Hn as <-).
    destruct (_get_null_object t0) as [e |]; cbn [bind] in Hn; [| discriminate].
    destruct (hashable e); [now injection Hn as <- | discriminate]. }
  destruct (in_ dict_ bases); [| discriminate].
  destruct ttypes as [[| t0 ts] |]; try (now injection Hn as <-).
  destruct (_get_null_object t0) as [e |]; cbn [bind] in Hn; [| discriminate].
  repeat match type of Hn with
         | (if ?c then _ else _) = _ => destruct c
         end; now injection Hn as <-.
Qed.

(** C9: for every built-in scalar descriptor the is-null-of-type predicate
    is the value equality with the canonical null, whatever the runtime kind
    of the value: [False] and [0.0] are both classified as the null of [int]
    although [0.0] is not an [int] and [False] has type [bool]. *)
Theorem scalar_null_test_is_value_equality :
  Forall
    (fun d =>
       exists null,
         nulls_get _builtin_nulls (d_id d) = Some null
         /\ _get_null_object d = Ok null
         /\ forall x, _is_null_of_type x d = Ok (py_eq x null))
    scalar_descriptors
  /\ _is_null_of_type (VBool false) int_ = Ok true
  /\ _is_null_of_type (VFloat 0) int_ = Ok true
  /\ d_instancecheck int_ (VFloat 0) = false
  /\ d_id (type_of (VBool false)) = c_bool.
Proof.
  split.
  - unfold scalar_descriptors.
    repeat (apply List.Forall_cons; [eexists; repeat split; reflexivity |]).
    apply List.Forall_nil.
  - repeat split; reflexivity.
Qed.

(** C6: the null object of a fixed-arity product descriptor, a tuple subclass
    named [Prod...] over the per-position descriptors [es], is the tuple of
    the null objects of [es], in order; over (int, str, bool) it is
    [(0, "", False)]. *)
Theorem null_of_product_is_tuple_of_nulls :
  (forall (typ : Descr) (bases es : list Descr),
      d_bases typ = Some bases ->
      in_ list_ bases = false -> in_ tuple_ bases = true ->
      d_types typ = Some es -> name_startswith "Prod" typ = true ->
      _get_null_object typ
      = (let* nulls := mapM _get_null_object es in Ok (VTuple nulls))
      /\ forall nulls,
           Forall2 (fun e null => _get_null_object e = Ok null) es nulls ->
           _get_null_object typ = Ok (VTuple nulls))
  /\ _get_null_object ProdIntStrBool = Ok (VTuple [VInt 0; VStr ""; VBool false]).
Proof.
  split; [| reflexivity].
  intros typ bases es Hb Hl Ht Hty Hnm.
  assert (Heq : _get_null_object typ
                = (let* nulls := mapM _get_null_object es in Ok (VTuple nulls))).
  { unfold_null typ. subst tbases ttypes.
    rewrite Hl, Ht. destruct es as [| e es]; [reflexivity |].
    now rewrite Hnm. }
  split; [exact Heq |].
  intros nulls HF. rewrite Heq. clear Heq Hty.
  induction HF as [| e null es nulls He _ IH]; [reflexivity |].
  cbn [mapM]. rewrite He. cbn [bind].
  change ((fix go (l : list Descr) : Res (list PyVal) :=
             match l with
             | [] => Ok []
             | a :: l' =>
                 let* b := _get_null_object a in let* bs := go l' in Ok (b :: bs)
             end) es) with (mapM _get_null_object es).
  destruct (mapM _get_null_object es) as [vs |]; [| discriminate].
  cbn [bind] in IH |- *. now injection IH as ->.
Qed.

Lemma null_of_product_witness :
  _get_null_object ProdIntStrBool
  = (let* nulls := mapM _get_null_object [int_; str_; bool_] in Ok (VTuple nulls)).
Proof.
  refine (proj1 (proj1 null_of_product_is_tuple_of_nulls ProdIntStrBool
                   [tuple_] [int_; str_; bool_] _ _ _ _ _)); reflexivity.
Defined.

(** C5, as the code has it: the null object of a typed dictionary descriptor
    is a one-item dict whose value is the null object of the first declared
    constituent and whose key is chosen by the kind of that same
    constituent (empty text for [str], 0 for [int], 0.0 for [float], [None]
    otherwise); over (str, int) it is [{"": ""}] and over (int,) it is
    [{0: 0}]. *)
Theorem null_of_typed_dict_key_from_first_constituent :
  (forall (typ : Descr) (bases : list Descr) (vtyp : Descr) (rest : list Descr),
      d_bases typ = Some bases ->
      in_ list_ bases = false -> in_ tuple_ bases = false ->
      in_ set_ bases = false -> in_ dict_ bases = true ->
      d_types typ = Some (vtyp :: rest) ->
      _get_null_object typ
      = (let* vnull := _get_null_object vtyp in
         Ok (VDict [(key_placeholder vtyp, vnull)])))
  /\ _get_null_object DictStrInt = Ok (VDict [(VStr "", VStr "")])
  /\ _get_null_object DictInt = Ok (VDict [(VInt 0, VInt 0)]).
Proof.
  split; [| split; reflexivity].
  intros typ bases vtyp rest Hb Hl Ht Hs Hd Hty.
  unfold_null typ. subst tbases ttypes. rewrite Hl, Ht, Hs, Hd.
  destruct (_get_null_object vtyp) as [vnull |]; cbn [bind]; [| reflexivity].
  unfold key_placeholder, in_. cbn [existsb]. rewrite !orb_false_r.
  now repeat match goal with |- context [if ?c then _ else _] => destruct c end.
Qed.

Lemma null_of_typed_dict_witness :
  _get_null_object DictStrInt
  = (let* vnull := _get_null_object str_ in
     Ok (VDict [(key_placeholder str_, vnull)])).
Proof.
  apply (proj1 null_of_typed_dict_key_from_first_constituent DictStrInt
           [dict_] str_ [int_]); reflexivity.
Defined.

(** C5, counterexample: for the dictionary descriptor over text and integer
    the null object is [{"": ""}], which is not equal to [{"": 0}]; with the
    integer descriptor alone the key is [0]. *)
Lemma null_of_dict_str_int_is_not_empty_text_to_zero :
  _get_null_object DictStrInt = Ok (VDict [(VStr "", VStr "")])
  /\ py_eq (VDict [(VStr "", VStr "")]) (VDict [(VStr "", VInt 0)]) = false
  /\ _get_null_object DictInt = Ok (VDict [(VInt 0, VInt 0)])
  /\ py_eq (VDict [(VInt 0, VInt 0)]) (VDict [(VStr "", VInt 0)]) = false.
Proof. repeat split; reflexivity. Qed.

(** Whenever the key placeholder is the empty text, the value beside it is
    the null object of [str] itself. *)
Lemma typed_dict_text_key_has_text_value (typ : Descr) (bases rest : list Descr) :
  d_bases typ = Some bases ->
  in_ list_ bases = false -> in_ tuple_ bases = false ->
  in_ set_ bases = false -> in_ dict_ bases = true ->
  d_types typ = Some (str_ :: rest) ->
  _get_null_object typ = Ok (VDict [(VStr "", VStr "")]).
Proof.
  intros Hb Hl Ht Hs Hd Hty.
  unfold_null typ. subst tbases ttypes. now rewrite Hl, Ht, Hs, Hd.
Qed.

(** What [_is_null_of_type] answers on the null object of a descriptor that
    is not a key of [_builtin_nulls]. *)
Lemma is_null_of_type_of_null (typ : Descr) (null : PyVal) :
  _get_null_object typ = Ok null ->
  nulls_get _builtin_nulls (d_id typ) = None ->
  _is_null_of_type null typ =
  match d_bases typ with
  | None => Ok true
  | Some [] => Raise IndexError
  | Some (base :: _) => Ok (d_instancecheck base null)
  end.
Proof.
  intros Hn Hk. unfold _is_null_of_type. rewrite Hn. cbn [bind]. rewrite Hk.
  destruct (d_bases typ) as [[| base rest] |]; cbn; now rewrite ?py_eq_refl.
Qed.

(** C3, as the code has it: for a descriptor [typ] whose null object [null]
    exists, the predicate applied to [null] returns, when [typ] is a key of
    the built-in nulls, whether [null] equals the entry of the table, which
    is the case when no container class is among the bases of [typ], in
    particular for the ten built-in classes of the table; when [typ] is not
    a key and has no [__bases__], true; and when [typ] is not a key and has
    a first base class, whether [null] is an instance of that class, which
    is the case for every such descriptor whose only base is [object],
    [list], [tuple], [set] or [dict]. *)
Theorem null_object_recognised_when_first_base_accepts :
  (forall (typ : Descr) (null : PyVal),
      _get_null_object typ = Ok null ->
      _is_null_of_type null typ =
      match nulls_get _builtin_nulls (d_id typ) with
      | Some table_null => Ok (py_eq null table_null)
      | None =>
          match d_bases typ with
          | None => Ok true
          | Some [] => Raise IndexError
          | Some (base :: _) => Ok (d_instancecheck base null)
          end
      end)
  /\ (forall (typ : Descr) (null : PyVal),
         _get_null_object typ = Ok null ->
         nulls_get _builtin_nulls (d_id typ) <> None ->
         (forall bases, d_bases typ = Some bases -> container_base bases = false) ->
         _is_null_of_type null typ = Ok true)
  /\ Forall
       (fun d =>
          exists null,
            _get_null_object d = Ok null /\ _is_null_of_type null d = Ok true)
       [int_; float_; str_; bool_; NoneType_;
        list_; tuple_; set_; frozenset_; dict_]
  /\ (forall (typ : Descr) (null : PyVal),
         _get_null_object typ = Ok null ->
         nulls_get _builtin_nulls (d_id typ) = None ->
         d_bases typ = None ->
         _is_null_of_type null typ = Ok true)
  /\ (forall (typ base : Descr) (rest : list Descr) (null : PyVal),
         _get_null_object typ = Ok null ->
         nulls_get _builtin_nulls (d_id typ) = None ->
         d_bases typ = Some (base :: rest) ->
         _is_null_of_type null typ = Ok (d_instancecheck base null))
  /\ (forall (typ base : Descr) (null : PyVal),
         _get_null_object typ = Ok null ->
         nulls_get _builtin_nulls (d_id typ) = None ->
         d_bases typ = Some [base] ->
         In base [object_; list_; tuple_; set_; dict_] ->
         _is_null_of_type null typ = Ok true).
Proof.
  assert (Hexact : forall (typ : Descr) (null : PyVal),
             _get_null_object typ = Ok null ->
             _is_null_of_type null typ =
             match nulls_get _builtin_nulls (d_id typ) with
             | Some table_null => Ok (py_eq null table_null)
             | None =>
                 match d_bases typ with
                 | None => Ok true
                 | Some [] => Raise IndexError
                 | Some (base :: _) => Ok (d_instancecheck base null)
                 end
             end).
  { intros typ null Hn.
    destruct (nulls_get _builtin_nulls (d_id typ)) as [n |] eqn:Hk.
    - unfold _is_null_of_type. rewrite Hn. cbn [bind]. now rewrite Hk.
    - exact (is_null_of_type_of_null typ null Hn Hk). }
  split; [exact Hexact |].
  split; [| split; [| split; [| split]]].
  - intros typ null Hn Hk Hb. rewrite (Hexact typ null Hn).
    rewrite (null_of_fallback typ Hb) in Hn.
    destruct (nulls_get _builtin_nulls (d_id typ)) as [n |]; [| now destruct Hk].
    injection Hn as <-. now rewrite py_eq_refl.
  - repeat (apply List.Forall_cons; [eexists; split; reflexivity |]).
    apply List.Forall_nil.
  - intros typ null Hn Hk Hb. rewrite (Hexact typ null Hn). now rewrite Hk, Hb.
  - intros typ base rest null Hn Hk Hb. rewrite (Hexact typ null Hn).
    now rewrite Hk, Hb.
  - intros typ base null Hn Hk Hb Hin.
    rewrite (Hexact typ null Hn), Hk, Hb. f_equal.
    destruct Hin as [<- | Hin]; [reflexivity |].
    assert (Hc : container_base [base] = true).
    { destruct Hin as [<- | [<- | [<- | [<- | []]]]]; reflexivity. }
    pose proof (null_of_container_kind typ [base] null Hb Hc Hn) as Hkind.
    destruct Hin as [<- | [<- | [<- | [<- | []]]]]; exact Hkind.
Qed.

Lemma null_object_recognised_witness :
  _is_null_of_type (VList [VInt 0]) ListInt = Ok true.
Proof.
  refine (proj2 (proj2 (proj2 (proj2 (proj2
            null_object_recognised_when_first_base_accepts))))
            ListInt list_ (VList [VInt 0]) _ _ _ _);
    [reflexivity | reflexivity | reflexivity |].
  right. left. reflexivity.
Defined.

(** C3, counterexample: the null object of a class derived from [int] is
    [None], and [None] is not recognised as its null, because [None] is not
    an instance of the first base, [int]. *)
Lemma null_of_int_subclass_is_not_recognised :
  _get_null_object MyInt = Ok VNone
  /\ _is_null_of_type VNone MyInt = Ok false.
Proof. split; reflexivity. Qed.

(** Two more descriptors on which the round trip does not return true: on
    [object], whose bases are empty, the predicate raises, and the null
    object of a set of lists cannot be built. *)
Example null_round_trip_raises :
  _get_null_object object_ = Ok VNone
  /\ _is_null_of_type VNone object_ = Raise IndexError
  /\ _get_null_object SetListInt = Raise (TypeError (Unhashable (VList [VInt 0]))).
Proof. repeat split; reflexivity. Qed.

(** ** Unions in the two checks *)

Lemma union_accepts_spec (types : list Descr) (x : PyVal) :
  union_accepts types x = true <->
  (exists t, In t types /\ d_instancecheck t x = true)
  /\ (forall t, In t types -> d_instancecheck t x = true -> check_fails t x = false).
Proof.
  unfold union_accepts. rewrite andb_true_iff, existsb_exists, forallb_forall.
  split; intros [Hex Hall]; (split; [exact Hex |]).
  - intros t Hin Hi. specialize (Hall t Hin). rewrite Hi in Hall.
    now destruct (check_fails t x).
  - intros t Hin. destruct (d_instancecheck t x) eqn:Hi; [| reflexivity].
    now rewrite (Hall t Hin Hi).
Qed.

Lemma union_accepts_perm (types types' : list Descr) (x : PyVal) :
  Permutation types types' -> union_accepts types' x = union_accepts types x.
Proof.
  intros Hp. apply eq_true_iff_eq. rewrite !union_accepts_spec.
  split; intros [[t [Hin Hi]] Hall]; split.
  - exists t. split; [| exact Hi]. eapply Permutation_in; [symmetry |]; eassumption.
  - intros t' Hin'. apply Hall. eapply Permutation_in; eassumption.
  - exists t. split; [| exact Hi]. eapply Permutation_in; eassumption.
  - intros t' Hin'. apply Hall. eapply Permutation_in; [symmetry |]; eassumption.
Qed.

Lemma union_refinement_lines_nil (name : string) (x : PyVal)
    (received : option string) (types : list Descr) :
  flat_map
    (fun t =>
       if d_instancecheck t x && check_fails t x then
         [L_param_check name; L_value x; L_received received;
          L_failed (_get_type_display_name t)]
       else [])
    types = []
  <-> forallb (fun t => negb (d_instancecheck t x && check_fails t x)) types = true.
Proof.
  induction types as [| t types IH]; simpl; [tauto |].
  destruct (d_instancecheck t x && check_fails t x); simpl; [| exact IH].
  split; discriminate.
Qed.

Lemma domain_mismatches_union (name : string) (u : Descr) (types : list Descr)
    (x : PyVal) :
  union_types_of u = Some types ->
  (domain_mismatches name u x = [] <-> union_accepts types x = true).
Proof.
  intros Hu. unfold domain_mismatches, union_accepts. rewrite Hu.
  destruct (existsb _ types); simpl.
  - apply union_refinement_lines_nil.
  - split; discriminate.
Qed.

Lemma codomain_union_loop_Ok (fname : string) (e a : option string) (x : PyVal)
    (types : list Descr) :
  codomain_union_loop fname e a x types = Ok tt
  <-> forallb (fun t => negb (d_instancecheck t x && check_fails t x)) types = true.
Proof.
  induction types as [| t types IH]; simpl; [tauto |].
  destruct (d_instancecheck t x && check_fails t x); simpl; [| exact IH].
  split; discriminate.
Qed.

Lemma index_head (name : string) (names : list string) :
  index (name :: names) name = Ok O.
Proof. simpl. now rewrite String.eqb_refl. Qed.

(** A call with a single parameter passes the domain check exactly when the
    parameter contributes no line. *)
Lemma _check_domain_single (func : Func) (name : string) (expected : Descr)
    (actual_domain : list Descr) (x : PyVal) (allow : bool) :
  _check_domain func [name] [expected] actual_domain [x] allow = Ok tt
  <-> domain_mismatches name expected x = [].
Proof.
  unfold _check_domain. cbn [combine domain_loop]. rewrite index_head.
  cbn. destruct (domain_mismatches name expected x); split; congruence.
Qed.

Lemma _check_codomain_union (func : Func) (u actual : Descr) (types : list Descr)
    (x : PyVal) (allow : bool) :
  union_types_of u = Some types -> d_id u <> c_Any -> d_id u <> c_empty ->
  (_check_codomain func u actual x allow = Ok tt <-> union_accepts types x = true).
Proof.
  intros Hu HA HE. unfold _check_codomain, union_accepts.
  destruct (cid_eqb (d_id u) c_Any) eqn:H1; [now apply cid_eqb_eq in H1 |].
  destruct (cid_eqb (d_id u) c_empty) eqn:H2; [now apply cid_eqb_eq in H2 |].
  cbn [orb]. rewrite Hu.
  destruct (existsb _ types); simpl.
  - apply codomain_union_loop_Ok.
  - destruct (join_names _ _); simpl; split; discriminate.
Qed.

(** C1, as the code has it: for a union descriptor the domain check and the
    codomain check accept a value if and only if some constituent matches
    it nominally and no constituent that matches it nominally has a failing
    refinement test; an accepted value is fully accepted by some
    constituent, and acceptance does not depend on the order of the
    constituents. *)
Theorem union_checks_accept_iff_every_matching_constituent_passes :
  forall (func : Func) (u : Descr) (types : list Descr) (x : PyVal),
    union_types_of u = Some types ->
    d_id u <> c_Any -> d_id u <> c_empty ->
    (union_accepts types x = true <->
     (exists t, In t types /\ d_instancecheck t x = true)
     /\ (forall t, In t types -> d_instancecheck t x = true ->
                   check_fails t x = false))
    /\ (forall name actual_domain allow,
           _check_domain func [name] [u] actual_domain [x] allow = Ok tt
           <-> union_accepts types x = true)
    /\ (forall actual allow,
           _check_codomain func u actual x allow = Ok tt
           <-> union_accepts types x = true)
    /\ (union_accepts types x = true ->
        exists t, In t types /\ accepts t x = true)
    /\ (forall (u' : Descr) (types' : list Descr),
           union_types_of u' = Some types' ->
           d_id u' <> c_Any -> d_id u' <> c_empty ->
           Permutation types types' ->
           (forall name actual_domain allow,
               _check_domain func [name] [u'] actual_domain [x] allow = Ok tt
               <-> _check_domain func [name] [u] actual_domain [x] allow = Ok tt)
           /\ (forall actual allow,
                  _check_codomain func u' actual x allow = Ok tt
                  <-> _check_codomain func u actual x allow = Ok tt)).
Proof.
  intros func u types x Hu HA HE.
  split; [apply union_accepts_spec |].
  split; [| split; [| split]].
  - intros name ad allow. rewrite _check_domain_single.
    now apply domain_mismatches_union.
  - intros actual allow. now apply _check_codomain_union.
  - intros Hacc. apply union_accepts_spec in Hacc.
    destruct Hacc as [[t [Hin Hi]] Hall]. exists t. split; [exact Hin |].
    unfold accepts. now rewrite Hi, (Hall t Hin Hi).
  - intros u' types' Hu' HA' HE' Hp. split.
    + intros name ad allow. rewrite !_check_domain_single.
      rewrite (domain_mismatches_union name u' types' x Hu').
      rewrite (domain_mismatches_union name u types x Hu).
      now rewrite (union_accepts_perm types types' x Hp).
    + intros actual allow.
      rewrite (_check_codomain_union func u' actual types' x allow Hu' HA' HE').
      rewrite (_check_codomain_union func u actual types x allow Hu HA HE).
      now rewrite (union_accepts_perm types types' x Hp).
Qed.

Lemma union_checks_accept_witness :
  _check_codomain f_pos_pos IntOrStr int_ (VInt 1) true = Ok tt
  <-> union_accepts [int_; str_] (VInt 1) = true.
Proof.
  refine (proj1 (proj2 (proj2
            (union_checks_accept_iff_every_matching_constituent_passes
               f_pos_pos IntOrStr [int_; str_] (VInt 1) _ _ _))) int_ true);
    [reflexivity | discriminate | discriminate].
Defined.

(** C1, counterexample: [int] fully accepts [-1], yet over the union of
    [int] and [Pos] both checks reject [-1], in either order of the
    constituents, because [Pos] matches [-1] nominally and its check fails. *)
Lemma union_rejects_value_that_a_constituent_accepts :
  accepts int_ (VInt (-1)) = true
  /\ _check_domain f_pos_pos ["a"] [IntOrPos] [int_] [VInt (-1)] true
     = Raise (TypeError (DomainMismatch "f"
         [L_param_check "a"; L_value (VInt (-1)); L_received (Some "Int");
          L_failed (Some "Pos")]))
  /\ _check_codomain f_pos_pos IntOrPos int_ (VInt (-1)) true
     = Raise (TypeError (CodomainMismatch "f"
         [L_failed_check; L_value (VInt (-1)); L_expected None;
          L_received (Some "Int"); L_failed (Some "Pos")]))
  /\ _check_domain f_pos_pos ["a"] [PosOrInt] [int_] [VInt (-1)] true
     = Raise (TypeError (DomainMismatch "f"
         [L_param_check "a"; L_value (VInt (-1)); L_received (Some "Int");
          L_failed (Some "Pos")])).
Proof. repeat split; reflexivity. Qed.

(** ** The aggregated domain diagnostic *)

(** The loop of [_check_domain] visits every pair and appends the lines of
    each, whatever the earlier pairs produced. *)
Lemma domain_loop_collects (param_names : list string) (args : list PyVal)
    (pairs : list (string * Descr)) (values : list PyVal) (acc : list Line) :
  Forall2 (fun p v => lookup_arg param_names args (fst p) = Ok v) pairs values ->
  domain_loop param_names args pairs acc
  = Ok (acc ++ flat_map
                 (fun pv => domain_mismatches (fst (fst pv)) (snd (fst pv)) (snd pv))
                 (combine pairs values)).
Proof.
  intros HF. revert acc.
  induction HF as [| [name t] v pairs values Hv _ IH]; intros acc.
  - simpl. now rewrite app_nil_r.
  - cbn [domain_loop combine flat_map fst snd].
    unfold lookup_arg in Hv. cbn [fst] in Hv.
    destruct (index param_names name) as [i |]; [| discriminate].
    cbn [bind] in Hv |- *. rewrite Hv. cbn [bind].
    rewrite IH. now rewrite app_assoc.
Qed.

(** Hence a call whose arguments can all be located raises at most one
    error, which carries the lines of every failing parameter, and raises
    none when no parameter contributes a line. *)
Lemma _check_domain_aggregates (func : Func) (param_names : list string)
    (expected_domain actual_domain : list Descr) (args values : list PyVal)
    (allow : bool) :
  Forall2 (fun p v => lookup_arg param_names args (fst p) = Ok v)
    (combine param_names expected_domain) values ->
  let lines :=
    flat_map (fun pv => domain_mismatches (fst (fst pv)) (snd (fst pv)) (snd pv))
      (combine (combine param_names expected_domain) values) in
  _check_domain func param_names expected_domain actual_domain args allow
  = match lines with
    | [] => Ok tt
    | _ :: _ => Raise (TypeError (DomainMismatch (f_name func) lines))
    end.
Proof.
  intros HF lines. unfold _check_domain.
  rewrite (domain_loop_collects _ _ _ values [] HF). cbn [bind app].
  fold lines. now destruct lines.
Qed.

(** The record of a failed additional check of a non-union descriptor: it
    has the value and the two display names, and no parameter name. *)
Lemma nominal_refinement_record (name : string) (t : Descr) (x : PyVal) :
  union_types_of t = None ->
  d_instancecheck t x = true -> check_fails t x = true ->
  domain_mismatches name t x
  = [L_value x; L_expected (_get_type_display_name t);
     L_received (_get_type_display_name (type_of x))]
  /\ named_params (domain_mismatches name t x) = [].
Proof.
  intros Hu Hi Hc. unfold domain_mismatches. rewrite Hu, Hi, Hc. now split.
Qed.

(** C2, at a failing input: for [def f(a: Pos, b: Pos)] called with
    [(0, -1)] both arguments fail the additional check of [Pos]; one error is
    raised and it carries a record for each argument, but its lines name
    neither [a] nor [b], as for every non-union descriptor whose additional
    check fails.  The sibling paths do name the parameter: a nominal mismatch
    on the same call site, and a failed check inside a union. *)
Theorem domain_refinement_records_omit_parameter_names :
  (forall (name : string) (t : Descr) (x : PyVal),
      union_types_of t = None ->
      d_instancecheck t x = true -> check_fails t x = true ->
      domain_mismatches name t x
      = [L_value x; L_expected (_get_type_display_name t);
         L_received (_get_type_display_name (type_of x))]
      /\ named_params (domain_mismatches name t x) = [])
  /\ _check_domain f_pos_pos ["a"; "b"] [Pos; Pos] [int_; int_]
       [VInt 0; VInt (-1)] true
     = Raise (TypeError (DomainMismatch "f"
         [L_value (VInt 0); L_expected (Some "Pos"); L_received (Some "Int");
          L_value (VInt (-1)); L_expected (Some "Pos"); L_received (Some "Int")]))
  /\ named_params
       [L_value (VInt 0); L_expected (Some "Pos"); L_received (Some "Int");
        L_value (VInt (-1)); L_expected (Some "Pos"); L_received (Some "Int")]
     = []
  /\ _check_domain f_pos_pos ["a"; "b"] [Pos; Pos] [str_; str_]
       [VStr "x"; VStr "y"] true
     = Raise (TypeError (DomainMismatch "f"
         [L_param "a"; L_value (VStr "x"); L_expected (Some "Pos");
          L_received (Some "Str");
          L_param "b"; L_value (VStr "y"); L_expected (Some "Pos");
          L_received (Some "Str")]))
  /\ _check_domain f_pos_pos ["a"; "b"] [PosOrInt; PosOrInt] [int_; int_]
       [VInt 0; VInt (-1)] true
     = Raise (TypeError (DomainMismatch "f"
         [L_param_check "a"; L_value (VInt 0); L_received (Some "Int");
          L_failed (Some "Pos");
          L_param_check "b"; L_value (VInt (-1)); L_received (Some "Int");
          L_failed (Some "Pos")]))
  /\ _check_domain f_pos_pos ["a"; "b"] [Pos; Pos] [int_; int_]
       [VInt 1; VInt 2] true = Ok tt.
Proof.
  split; [exact nominal_refinement_record |].
  repeat split; reflexivity.
Qed.

(** ** The codomain diagnostic *)

(** In the nominal branch a failed additional check never produces the
    codomain diagnostic: building its message reads the unbound local [t]. *)
Lemma nominal_codomain_refinement_failure (func : Func) (t actual : Descr)
    (x : PyVal) (allow : bool) :
  d_id t <> c_Any -> d_id t <> c_empty ->
  union_types_of t = None -> d_is_type t = true ->
  d_instancecheck t x = true -> check_fails t x = true ->
  allow || is_ actual t = true ->
  _check_codomain func t actual x allow = Raise (UnboundLocalError "t").
Proof.
  intros HA HE Hu Ht Hi Hc Hallow. unfold _check_codomain.
  destruct (cid_eqb (d_id t) c_Any) eqn:H1; [now apply cid_eqb_eq in H1 |].
  destruct (cid_eqb (d_id t) c_empty) eqn:H2; [now apply cid_eqb_eq in H2 |].
  cbn [orb]. rewrite Hu, Ht, Hi, Hc.
  destruct allow; cbn in Hallow |- *; [reflexivity | now rewrite Hallow].
Qed.

(** C4, at a failing input: the declared codomain is the nominal descriptor
    [Pos] and the result [-1] is an [int], so the nominal membership
    succeeds and the check of [Pos] rejects it; the codomain check then
    raises [UnboundLocalError] for the local [t], not the codomain
    diagnostic, as for every nominal descriptor whose additional check
    rejects a result that it matches.  A nominal mismatch on the same
    descriptor does raise the diagnostic with the two display names, and a
    result that passes the check is accepted. *)
Theorem nominal_codomain_refinement_failure_reads_unbound_local :
  (forall (func : Func) (t actual : Descr) (x : PyVal) (allow : bool),
      d_id t <> c_Any -> d_id t <> c_empty ->
      union_types_of t = None -> d_is_type t = true ->
      d_instancecheck t x = true -> check_fails t x = true ->
      allow || is_ actual t = true ->
      _check_codomain func t actual x allow = Raise (UnboundLocalError "t"))
  /\ d_instancecheck Pos (VInt (-1)) = true
  /\ check_fails Pos (VInt (-1)) = true
  /\ _check_codomain f_pos_pos Pos int_ (VInt (-1)) true
     = Raise (UnboundLocalError "t")
  /\ _check_codomain f_pos_pos Pos str_ (VStr "x") true
     = Raise (TypeError (CodomainMismatch "f"
         [L_value (VStr "x"); L_expected (Some "Pos"); L_received (Some "Str")]))
  /\ _check_codomain f_pos_pos Pos int_ (VInt 3) true = Ok tt.
Proof.
  split; [exact nominal_codomain_refinement_failure |].
  repeat split; reflexivity.
Qed.

Lemma join_names_all (names : list string) (i : nat) :
  join_names i (map Some names) = Ok names.
Proof.
  revert i. induction names as [| n names IH]; intros i; simpl; [reflexivity |].
  now rewrite IH.
Qed.

(** When no constituent matches and every constituent has a display name,
    the diagnostic lists all of them. *)
Lemma codomain_union_no_match (func : Func) (u actual : Descr)
    (types : list Descr) (names : list string) (x : PyVal) (allow : bool) :
  d_id u <> c_Any -> d_id u <> c_empty ->
  union_types_of u = Some types ->
  existsb (fun t => d_instancecheck t x) types = false ->
  map _get_type_display_name types = map Some names ->
  _check_codomain func u actual x allow
  = Raise (TypeError (CodomainMismatch (f_name func)
      [L_value x; L_expected_union names;
       L_received (_get_type_display_name actual)])).
Proof.
  intros HA HE Hu Hex Hn. unfold _check_codomain.
  destruct (cid_eqb (d_id u) c_Any) eqn:H1; [now apply cid_eqb_eq in H1 |].
  destruct (cid_eqb (d_id u) c_empty) eqn:H2; [now apply cid_eqb_eq in H2 |].
  cbn [orb]. rewrite Hu, Hex, Hn, join_names_all. reflexivity.
Qed.

(** Joining the expected names fails at the first constituent without a
    display name. *)
Lemma join_names_first_absent (pre : list string) (post : list (option string))
    (i : nat) :
  join_names i (map Some pre ++ None :: post)
  = Raise (TypeError (JoinExpectedStr (i + length pre))).
Proof.
  revert i. induction pre as [| n pre IH]; intros i; simpl.
  - now rewrite Nat.add_0_r.
  - rewrite IH. simpl. now rewrite Nat.add_succ_r.
Qed.

Lemma codomain_union_no_match_absent_name (func : Func) (u actual : Descr)
    (types : list Descr) (pre : list string) (post : list (option string))
    (x : PyVal) (allow : bool) :
  d_id u <> c_Any -> d_id u <> c_empty ->
  union_types_of u = Some types ->
  existsb (fun t => d_instancecheck t x) types = false ->
  map _get_type_display_name types = map Some pre ++ None :: post ->
  _check_codomain func u actual x allow
  = Raise (TypeError (JoinExpectedStr (length pre))).
Proof.
  intros HA HE Hu Hex Hn. unfold _check_codomain.
  destruct (cid_eqb (d_id u) c_Any) eqn:H1; [now apply cid_eqb_eq in H1 |].
  destruct (cid_eqb (d_id u) c_empty) eqn:H2; [now apply cid_eqb_eq in H2 |].
  cbn [orb]. rewrite Hu, Hex, Hn, join_names_first_absent. reflexivity.
Qed.

(** C7, at a failing input: the declared codomain is the union of [int] and
    [list] and the result is the float [1.5], which matches neither; [list]
    has no display name, so joining the expected names raises the
    [TypeError] of [str.join] and the codomain diagnostic is never built, as
    for every union with a constituent without display name.  When every
    constituent has a display name the diagnostic lists all of them: over
    the union of [int] and [str] the same result is rejected with the
    diagnostic that names both. *)
Theorem codomain_union_without_display_name_fails_in_join :
  (forall (func : Func) (u actual : Descr) (types : list Descr)
          (pre : list string) (post : list (option string))
          (x : PyVal) (allow : bool),
      d_id u <> c_Any -> d_id u <> c_empty ->
      union_types_of u = Some types ->
      existsb (fun t => d_instancecheck t x) types = false ->
      map _get_type_display_name types = map Some pre ++ None :: post ->
      _check_codomain func u actual x allow
      = Raise (TypeError (JoinExpectedStr (length pre))))
  /\ (forall (func : Func) (u actual : Descr) (types : list Descr)
             (names : list string) (x : PyVal) (allow : bool),
         d_id u <> c_Any -> d_id u <> c_empty ->
         union_types_of u = Some types ->
         existsb (fun t => d_instancecheck t x) types = false ->
         map _get_type_display_name types = map Some names ->
         _check_codomain func u actual x allow
         = Raise (TypeError (CodomainMismatch (f_name func)
             [L_value x; L_expected_union names;
              L_received (_get_type_display_name actual)])))
  /\ existsb (fun t => d_instancecheck t (VFloat (3 # 2))) [int_; list_] = false
  /\ map _get_type_display_name [int_; list_] = [Some "Int"; None]
  /\ _check_codomain f_pos_pos IntOrList float_ (VFloat (3 # 2)) true
     = Raise (TypeError (JoinExpectedStr 1))
  /\ _check_codomain f_pos_pos IntOrStr float_ (VFloat (3 # 2)) true
     = Raise (TypeError (CodomainMismatch "f"
         [L_value (VFloat (3 # 2)); L_expected_union ["Int"; "Str"];
          L_received (Some "Float")])).
Proof.
  split; [exact codomain_union_no_match_absent_name |].
  split; [exact codomain_union_no_match |].
  repeat split; reflexivity.
Qed.

(** * Further properties of the helper *)

(** ** Flattening *)

Lemma collect_app (l1 l2 : list (option Descr)) :
  collect (l1 ++ l2) =
  match collect l1, collect l2 with
  | Some a, Some b => Some (a ++ b)
  | _, _ => None
  end.
Proof.
  induction l1 as [| [d |] l1 IH]; simpl.
  - now destruct (collect l2).
  - rewrite IH. destruct (collect l1), (collect l2); reflexivity.
  - reflexivity.
Qed.

Lemma collect_Some (l : list (option Descr)) (ds : list Descr) :
  collect l = Some ds <-> l = map Some ds.
Proof.
  revert ds. induction l as [| [d |] l IH]; intros ds; simpl.
  - split; [intros [= <-]; reflexivity | now destruct ds].
  - destruct (collect l) as [ds' |] eqn:Hc.
    + split.
      * intros [= <-]. simpl. f_equal. now apply IH.
      * destruct ds as [| d0 ds0]; [discriminate |]. simpl. intros [= -> H].
        apply IH in H. now injection H as ->.
    + split; [discriminate |].
      destruct ds as [| d0 ds0]; [discriminate |]. simpl. intros [= -> H].
      apply IH in H. discriminate.
  - split; [discriminate | now destruct ds].
Qed.

Lemma collect_None (l : list (option Descr)) :
  collect l = None <-> In None l.
Proof.
  induction l as [| [d |] l IH]; simpl.
  - split; [discriminate | tauto].
  - destruct (collect l).
    + split; [discriminate |]. intros [H | H]; [discriminate | now apply IH in H].
    + split; [| reflexivity]. intros _. right. now apply IH.
  - split; [now left | reflexivity].
Qed.

(** The loop over a sequence appends the leaves of each element, given
    that each element does. *)
Lemma for_each_flatten_leaves (items : list Item) :
  Forall
    (fun item =>
       forall acc,
         _flatten item acc =
         match collect (leaves item) with
         | Some ds => Returns (acc ++ ds)
         | None => Raises Unsupported_in_flat
         end) items ->
  forall acc,
    for_each _flatten items acc =
    match collect (flat_map leaves items) with
    | Some ds => Returns (acc ++ ds)
    | None => Raises Unsupported_in_flat
    end.
Proof.
  induction 1 as [| item items Hitem _ IH]; intros acc.
  - simpl. now rewrite app_nil_r.
  - cbn [for_each flat_map]. rewrite Hitem, collect_app.
    destruct (collect (leaves item)) as [ds |]; [| reflexivity].
    fold (for_each _flatten). rewrite IH.
    destruct (collect (flat_map leaves items)) as [ds' |]; [| reflexivity].
    now rewrite app_assoc.
Qed.

(** [_flatten] appends the leaves of its argument to [flat_list], in order,
    or raises when a leaf is not a class. *)
Lemma _flatten_leaves (item : Item) (acc : list Descr) :
  _flatten item acc =
  match collect (leaves item) with
  | Some ds => Returns (acc ++ ds)
  | None => Raises Unsupported_in_flat
  end.
Proof.
  revert acc. induction item using Item_nested_ind; intros acc.
  - simpl. now destruct (d_is_type d).
  - cbn [_flatten leaves]. now apply for_each_flatten_leaves.
  - reflexivity.
Qed.

Lemma leaves_are_types (item : Item) :
  Forall (fun o => match o with Some d => d_is_type d = true | None => True end)
    (leaves item).
Proof.
  induction item using Item_nested_ind; simpl.
  - destruct (d_is_type d) eqn:E; repeat constructor. exact E.
  - induction H as [| it items Hit _ IH]; simpl; [constructor |].
    apply Forall_app. now split.
  - repeat constructor.
Qed.

Lemma flat_leaves_are_types (types : list Item) (ds : list Descr) :
  flat_map leaves types = map Some ds -> forallb d_is_type ds = true.
Proof.
  intros H. apply forallb_forall. intros d Hd.
  assert (HF : Forall (fun o => match o with
                                | Some d => d_is_type d = true
                                | None => True
                                end) (flat_map leaves types)).
  { clear. induction types as [| it types IH]; simpl; [constructor |].
    apply Forall_app. split; [apply leaves_are_types | exact IH]. }
  rewrite List.Forall_forall in HF.
  apply (HF (Some d)). rewrite H. now apply in_map.
Qed.

(** [_flat] in closed form. *)
Lemma _flat_closed_form (types : list Item) :
  _flat types =
  match types with
  | [] => Returns ([], false)
  | _ :: _ =>
      match collect (flat_map leaves types) with
      | Some ds => Returns (ds, true)
      | None => Raises Unsupported_in_flat
      end
  end.
Proof.
  destruct types as [| it types]; [reflexivity |].
  unfold _flat.
  rewrite (for_each_flatten_leaves (it :: types)).
  - destruct (collect (flat_map leaves (it :: types))) as [ds |] eqn:Hc;
      [| reflexivity].
    cbn [app]. apply collect_Some in Hc.
    now rewrite (flat_leaves_are_types _ _ Hc).
  - apply List.Forall_forall. intros item _ acc. apply _flatten_leaves.
Qed.

Lemma _flat_returns (types : list Item) (ds : list Descr) (flexible : bool) :
  _flat types = Returns (ds, flexible) ->
  flat_map leaves types = map Some ds
  /\ Forall (fun d => d_is_type d = true) ds.
Proof.
  intros H. rewrite _flat_closed_form in H.
  assert (Hl : flat_map leaves types = map Some ds).
  { destruct types as [| it types]; [now injection H as <- <- |].
    destruct (collect _) as [ds' |] eqn:Hc; [| discriminate].
    injection H as <- <-. now apply collect_Some. }
  split; [exact Hl |].
  apply List.Forall_forall. intros d Hd.
  pose proof (flat_leaves_are_types types ds Hl) as Hall.
  rewrite forallb_forall in Hall. now apply Hall.
Qed.

(** X1: [_flat] fails exactly when some leaf of its arguments, however
    deeply nested in lists and tuples, is not a class; the error is always
    the one of [_flatten], so the final check that all collected items are
    types can never fire. *)
Theorem flat_raises_iff_some_leaf_is_not_a_class :
  forall types : list Item,
    ((exists e, _flat types = Raises e) <-> In None (flat_map leaves types))
    /\ (forall e, _flat types = Raises e -> e = Unsupported_in_flat)
    /\ _flat types <> Raises Not_all_types.
Proof.
  intros types. rewrite _flat_closed_form.
  destruct types as [| it types].
  - split; [| split]; try discriminate.
    split; [intros [e He]; discriminate | intros []].
  - destruct (collect (flat_map leaves (it :: types))) as [ds |] eqn:Hc.
    + split; [| split]; try discriminate.
      split; [intros [e He]; discriminate |].
      intros Hin. apply collect_None in Hin. congruence.
    + split; [| split]; try discriminate.
      * split; [intros _; now apply collect_None | eauto].
      * now intros e [= <-].
Qed.

(** X2: when [_flat] returns, its tuple lists the class leaves of the
    arguments from left to right, one entry per leaf, so a class given twice
    appears twice; every entry is a class; and the flag is true exactly when
    at least one argument was passed, also when the tuple is empty. *)
Theorem flat_returns_leaves_in_order_with_duplicates :
  forall (types : list Item) (ds : list Descr) (flexible : bool),
    _flat types = Returns (ds, flexible) ->
    flat_map leaves types = map Some ds
    /\ length ds = length (flat_map leaves types)
    /\ Forall (fun d => d_is_type d = true) ds
    /\ (flexible = true <-> types <> []).
Proof.
  intros types ds flexible H.
  destruct (_flat_returns types ds flexible H) as [Hl Ht].
  rewrite _flat_closed_form in H.
  split; [exact Hl |]. split; [now rewrite Hl, length_map |]. split; [exact Ht |].
  destruct types as [| it types]; [injection H as <- <-; split; congruence |].
  destruct (collect _); [| discriminate]. injection H as <- <-.
  split; [discriminate | reflexivity].
Qed.

Lemma flat_returns_leaves_witness :
  flat_map leaves [ISeq [IObj int_; ISeq [IObj str_]]; IObj int_]
  = map Some [int_; str_; int_]
  /\ length [int_; str_; int_]
     = length (flat_map leaves [ISeq [IObj int_; ISeq [IObj str_]]; IObj int_])
  /\ Forall (fun d => d_is_type d = true) [int_; str_; int_]
  /\ (true = true <-> [ISeq [IObj int_; ISeq [IObj str_]]; IObj int_] <> []).
Proof.
  apply (flat_returns_leaves_in_order_with_duplicates
           [ISeq [IObj int_; ISeq [IObj str_]]; IObj int_] [int_; str_; int_] true).
  reflexivity.
Defined.

(** X3: nesting does not matter to [_flat]: wrapping the arguments in one
    list gives the same result, the result of two argument lists put
    together is the concatenation of their results, and flattening the
    returned classes again returns them unchanged. *)
Theorem flat_ignores_nesting :
  forall (xs ys : list Item) (dx dy : list Descr) (fx fy : bool),
    _flat xs = Returns (dx, fx) -> _flat ys = Returns (dy, fy) ->
    xs <> [] ->
    _flat [ISeq xs] = Returns (dx, true)
    /\ _flat (xs ++ ys) = Returns (dx ++ dy, true)
    /\ _flat [ISeq xs; ISeq ys] = Returns (dx ++ dy, true)
    /\ (dx <> [] -> _flat (map IObj dx) = Returns (dx, true)).
Proof.
  intros xs ys dx dy fx fy Hx Hy Hne.
  destruct (_flat_returns xs dx fx Hx) as [Lx Tx].
  destruct (_flat_returns ys dy fy Hy) as [Ly _].
  rewrite !_flat_closed_form.
  assert (Hxy : collect (flat_map leaves xs ++ flat_map leaves ys) = Some (dx ++ dy)).
  { apply collect_Some. now rewrite Lx, Ly, map_app. }
  repeat split.
  - cbn [flat_map leaves]. rewrite app_nil_r.
    replace (collect (flat_map leaves xs)) with (Some dx);
      [reflexivity | symmetry; now apply collect_Some].
  - destruct xs as [| x xs]; [congruence |]. cbn [app].
    change (x :: xs ++ ys) with ((x :: xs) ++ ys). rewrite flat_map_app.
    now rewrite Hxy.
  - cbn [flat_map leaves]. rewrite app_nil_r. now rewrite Hxy.
  - intros Hd. destruct dx as [| d dx]; [congruence |].
    cbn [map]. change (IObj d :: map IObj dx) with (map IObj (d :: dx)).
    replace (collect (flat_map leaves (map IObj (d :: dx)))) with (Some (d :: dx));
      [reflexivity |].
    symmetry. apply collect_Some.
    clear -Tx. induction Tx as [| t ts Ht _ IH]; [reflexivity |].
    simpl. rewrite Ht. simpl. now rewrite IH.
Qed.

Lemma flat_ignores_nesting_witness :
  _flat [ISeq [IObj int_]] = Returns ([int_], true)
  /\ _flat ([IObj int_] ++ [IObj str_]) = Returns ([int_] ++ [str_], true)
  /\ _flat [ISeq [IObj int_]; ISeq [IObj str_]] = Returns ([int_] ++ [str_], true)
  /\ ([int_] <> [] -> _flat (map IObj [int_]) = Returns ([int_], true)).
Proof.
  apply (flat_ignores_nesting [IObj int_] [IObj str_] [int_] [str_] true true);
    [reflexivity | reflexivity | discriminate].
Defined.

(** ** Unwrapping *)

(** The shape of the source: follow [__wrapped__] to the end of the chain,
    then continue below [func] when the end has that attribute. *)
Lemma _get_original_func_loop (func : Callable) :
  _get_original_func func =
  let func' := unwrap_wrapped func in
  match c_func func' with
  | Some inner => _get_original_func inner
  | None => func'
  end.
Proof.
  induction func as [c IHw IHf] using Callable_nested_ind.
  destruct c as [nm sig hints [w |] inner cd cc]; cbn in *.
  - now apply IHw.
  - reflexivity.
Qed.

Lemma _get_original_func_original (func : Callable) :
  c_wrapped (_get_original_func func) = None
  /\ c_func (_get_original_func func) = None.
Proof.
  induction func as [c IHw IHf] using Callable_nested_ind.
  destruct c as [nm sig hints [w |] [i |] cd cc]; cbn in *; auto.
Qed.

Lemma _get_original_func_fixed (func : Callable) :
  c_wrapped func = None -> c_func func = None -> _get_original_func func = func.
Proof.
  intros Hw Hf. destruct func as [nm sig hints w i cd cc]; cbn in *.
  now subst w i.
Qed.

(** X5: the callable that [_get_original_func] returns has neither
    [__wrapped__] nor [func]; a callable without these two attributes is
    returned as it is; and unwrapping twice is the same as unwrapping once. *)
Theorem get_original_func_reaches_an_unwrapped_callable :
  forall func : Callable,
    c_wrapped (_get_original_func func) = None
    /\ c_func (_get_original_func func) = None
    /\ _get_original_func (_get_original_func func) = _get_original_func func
    /\ (c_wrapped func = None -> c_func func = None ->
        _get_original_func func = func).
Proof.
  intros func.
  destruct (_get_original_func_original func) as [Hw Hf].
  repeat split; try assumption.
  - now apply _get_original_func_fixed.
  - apply _get_original_func_fixed.
Qed.

Lemma _get_original_func_wrapped (func wrapped : Callable) :
  c_wrapped func = Some wrapped ->
  _get_original_func func = _get_original_func wrapped.
Proof.
  intros H. destruct func as [nm sig hints w i cd cc]; cbn in *. now subst w.
Qed.

Lemma _get_original_func_inner (func inner : Callable) :
  c_wrapped func = None -> c_func func = Some inner ->
  _get_original_func func = _get_original_func inner.
Proof.
  intros Hw Hf. destruct func as [nm sig hints w i cd cc]; cbn in *.
  now subst w i.
Qed.

(** X6: a wrapping layer is transparent to the signature extractor: the
    hinted domain and codomain of a callable with [__wrapped__] are those of
    what it wraps, whatever hints, signature or [func] attribute the wrapper
    itself has; a callable without [__wrapped__] that has [func] is read
    through [func] in the same way. *)
Theorem hinted_signature_reads_through_wrappers :
  forall func below : Callable,
    (c_wrapped func = Some below
     \/ (c_wrapped func = None /\ c_func func = Some below)) ->
    _hinted_domain func = _hinted_domain below
    /\ _hinted_codomain func = _hinted_codomain below.
Proof.
  intros func below H.
  assert (E : _get_original_func func = _get_original_func below).
  { destruct H as [Hw | [Hw Hf]];
      [now apply _get_original_func_wrapped | now apply _get_original_func_inner]. }
  unfold _hinted_domain, _hinted_codomain. now rewrite E.
Qed.

Lemma hinted_signature_reads_through_wrappers_witness :
  _hinted_domain wrapped_f = _hinted_domain plain_f
  /\ _hinted_codomain wrapped_f = _hinted_codomain plain_f.
Proof.
  apply (hinted_signature_reads_through_wrappers wrapped_f plain_f).
  left. reflexivity.
Defined.

(** ** Hinted domain and codomain *)

Lemma hinted_param_lookup (hints : gmap string Descr) (names : list string)
    (nm : string) :
  _is_domain_hinted (mkFunc nm names hints) = Ok true ->
  forall p, In p names -> exists h, hints !! p = Some h.
Proof.
  intros H p Hin. rewrite _is_domain_hinted_unhinted in H.
  destruct (hints !! p) as [h |] eqn:Hp; [eauto |].
  assert (Hu : In p (unhinted (mkFunc nm names hints))).
  { apply unhinted_In. now split. }
  destruct (unhinted (mkFunc nm names hints)); [destruct Hu | discriminate].
Qed.

(** X7: for a callable that has neither [__wrapped__] nor [func] (it is its
    own original) and no composed domain, whose parameters are all
    positional or keyword (no variadic one), on which the domain-hint check
    passes and none of whose hints is [inspect.Signature.empty], the hinted
    domain has one descriptor per parameter, in declaration order: the hint
    of that parameter; and every callable that unwraps to it has the same
    hinted domain. *)
Theorem hinted_domain_lists_the_hints_in_parameter_order :
  forall (func : Callable) (parameters : list (string * ParamKind)),
    c_wrapped func = None -> c_func func = None ->
    c_composed_domain_hint func = None ->
    c_signature func = Some parameters ->
    Forall (fun p => kept_kind (snd p) = true) parameters ->
    _is_domain_hinted (reflected func parameters) = Ok true ->
    (forall p h, c_type_hints func !! p = Some h -> is_ h empty_ = false) ->
    Forall2 (fun p h => c_type_hints func !! fst p = Some h)
      parameters (_hinted_domain func)
    /\ length (_hinted_domain func) = length parameters
    /\ (forall wrapper : Callable,
           _get_original_func wrapper = func ->
           _hinted_domain wrapper = _hinted_domain func).
Proof.
  intros func parameters Hw Hf Hc Hs Hk Hh He.
  pose proof (_get_original_func_fixed func Hw Hf) as Ho.
  assert (HF : Forall2 (fun p h => c_type_hints func !! fst p = Some h)
                 parameters (_hinted_domain func)).
  { unfold _hinted_domain. rewrite Ho, Hc, Hs.
    pose proof (hinted_param_lookup _ _ _ Hh) as Hl. cbn [f_parameters] in Hl.
    clear Hs Hh Hc Ho.
    induction parameters as [| [name kind] parameters IH]; [constructor |].
    cbn [flat_map fst snd]. inversion Hk as [| ? ? Hk1 Hk2]; subst.
    cbn [snd] in Hk1. rewrite Hk1.
    destruct (Hl name) as [h Hname]; [now left |].
    unfold hint_or_empty. rewrite Hname, (He name h Hname). cbn [negb app].
    constructor; [exact Hname |].
    apply IH; [exact Hk2 |]. intros p Hp. apply Hl. now right. }
  split; [exact HF |]. split; [symmetry; exact (Forall2_length _ _ _ HF) |].
  intros wrapper Hwr. unfold _hinted_domain. now rewrite Hwr, Ho.
Qed.

Lemma hinted_domain_of_plain_f_witness :
  Forall2 (fun p h => c_type_hints plain_f !! fst p = Some h)
    [("a", POSITIONAL_OR_KEYWORD); ("b", POSITIONAL_OR_KEYWORD)]
    (_hinted_domain plain_f)
  /\ length (_hinted_domain plain_f)
     = length [("a", POSITIONAL_OR_KEYWORD); ("b", POSITIONAL_OR_KEYWORD)]
  /\ (forall wrapper : Callable,
         _get_original_func wrapper = plain_f ->
         _hinted_domain wrapper = _hinted_domain plain_f).
Proof.
  apply (hinted_domain_lists_the_hints_in_parameter_order plain_f
           [("a", POSITIONAL_OR_KEYWORD); ("b", POSITIONAL_OR_KEYWORD)]).
  - reflexivity.
  - reflexivity.
  - reflexivity.
  - reflexivity.
  - repeat constructor.
  - vm_compute. reflexivity.
  - intros p h. cbn [plain_f c_type_hints]. intros H.
    destruct (decide (p = "a")) as [-> | Ha].
    { rewrite lookup_insert_eq in H. now injection H as <-. }
    rewrite lookup_insert_ne in H by congruence.
    destruct (decide (p = "b")) as [-> | Hb].
    { rewrite lookup_insert_eq in H. now injection H as <-. }
    rewrite lookup_insert_ne in H by congruence.
    destruct (decide (p = "return")) as [-> | Hr].
    { rewrite lookup_insert_eq in H. now injection H as <-. }
    rewrite lookup_insert_ne in H by congruence.
    rewrite lookup_empty in H. discriminate.
Defined.

Lemma kept_hints_are_parameter_hints (hints : gmap string Descr)
    (parameters : list (string * ParamKind)) :
  Forall
    (fun h =>
       exists p, In p parameters /\ kept_kind (snd p) = true
                 /\ hints !! fst p = Some h)
    (flat_map
       (fun param =>
          if kept_kind (snd param) then
            if negb (is_ (hint_or_empty hints (fst param)) empty_)
            then [hint_or_empty hints (fst param)] else []
          else []) parameters)
  /\ (length
        (flat_map
           (fun param =>
              if kept_kind (snd param) then
                if negb (is_ (hint_or_empty hints (fst param)) empty_)
                then [hint_or_empty hints (fst param)] else []
              else []) parameters)
      <= length (List.filter (fun p => kept_kind (snd p)) parameters))%nat
  /\ (Forall (fun p => kept_kind (snd p) = false) parameters ->
      flat_map
        (fun param =>
           if kept_kind (snd param) then
             if negb (is_ (hint_or_empty hints (fst param)) empty_)
             then [hint_or_empty hints (fst param)] else []
           else []) parameters = []).
Proof.
  induction parameters as [| [name kind] parameters IH].
  - repeat split; [constructor | simpl; lia].
  - destruct IH as (IH1 & IH2 & IH3). cbn [flat_map List.filter fst snd].
    assert (Hmono : Forall
              (fun h => exists p, In p ((name, kind) :: parameters)
                                  /\ kept_kind (snd p) = true
                                  /\ hints !! fst p = Some h)
              (flat_map
                 (fun param =>
                    if kept_kind (snd param) then
                      if negb (is_ (hint_or_empty hints (fst param)) empty_)
                      then [hint_or_empty hints (fst param)] else []
                    else []) parameters)).
    { eapply List.Forall_impl; [| exact IH1]. intros h (p & Hin & Hk & Hh).
      exists p. repeat split; [now right | exact Hk | exact Hh]. }
    destruct (kept_kind kind) eqn:Hk.
    + destruct (negb (is_ (hint_or_empty hints name) empty_)) eqn:E;
        cbn [app length].
      * assert (Hn : hints !! name = Some (hint_or_empty hints name)).
        { unfold hint_or_empty in *.
          destruct (hints !! name); [reflexivity | vm_compute in E; discriminate E]. }
        split; [| split].
        -- constructor; [| exact Hmono].
           exists (name, kind). repeat split; [now left | exact Hk | exact Hn].
        -- lia.
        -- intros HF. inversion HF as [| ? ? H1 H2]; subst. cbn in H1. congruence.
      * split; [exact Hmono | split; [lia |]].
        intros HF. inversion HF as [| ? ? H1 H2]; subst. cbn in H1. congruence.
    + cbn [app]. split; [exact Hmono | split; [exact IH2 |]].
      intros HF. inversion HF as [| ? ? H1 H2]; subst. now apply IH3.
Qed.

(** X8: the hinted domain is the composed domain of the original, as it is,
    when the original carries one, and the empty tuple when it carries none
    and its signature cannot be read; otherwise every descriptor of the
    hinted domain is the hint of a positional or keyword parameter of the
    original, and there is at most one per such parameter: variadic
    parameters never contribute, even when they are hinted, and an original
    that has only these has the empty domain. *)
Theorem hinted_domain_skips_variadic_parameters :
  forall func : Callable,
    (forall composed,
        c_composed_domain_hint (_get_original_func func) = Some composed ->
        _hinted_domain func = composed)
    /\ (c_composed_domain_hint (_get_original_func func) = None ->
        c_signature (_get_original_func func) = None ->
        _hinted_domain func = [])
    /\ (forall parameters,
           c_composed_domain_hint (_get_original_func func) = None ->
           c_signature (_get_original_func func) = Some parameters ->
           Forall
             (fun h =>
                exists p, In p parameters /\ kept_kind (snd p) = true
                          /\ c_type_hints (_get_original_func func) !! fst p = Some h)
             (_hinted_domain func)
           /\ (length (_hinted_domain func)
               <= length (List.filter (fun p => kept_kind (snd p)) parameters))%nat
           /\ (Forall (fun p => kept_kind (snd p) = false) parameters ->
               _hinted_domain func = [])).
Proof.
  intros func. unfold _hinted_domain. split; [| split].
  - intros composed Hc. now rewrite Hc.
  - intros Hc Hs. now rewrite Hc, Hs.
  - intros parameters Hc Hs. rewrite Hc, Hs.
    apply kept_hints_are_parameter_hints.
Qed.

Lemma hinted_domain_of_variadic_witness :
  Forall
    (fun h =>
       exists p, In p [("xs", VAR_POSITIONAL); ("kw", VAR_KEYWORD)]
                 /\ kept_kind (snd p) = true
                 /\ c_type_hints (_get_original_func variadic_g) !! fst p = Some h)
    (_hinted_domain variadic_g)
  /\ (length (_hinted_domain variadic_g)
      <= length (List.filter (fun p => kept_kind (snd p))
                   [("xs", VAR_POSITIONAL); ("kw", VAR_KEYWORD)]))%nat
  /\ (Forall (fun p => kept_kind (snd p) = false)
        [("xs", VAR_POSITIONAL); ("kw", VAR_KEYWORD)] ->
      _hinted_domain variadic_g = []).
Proof.
  apply (proj2 (proj2 (hinted_domain_skips_variadic_parameters variadic_g))
           [("xs", VAR_POSITIONAL); ("kw", VAR_KEYWORD)]); reflexivity.
Defined.

(** X9: for a callable that has neither [__wrapped__] nor [func] (it is its
    own original), no composed codomain and a readable signature, the
    codomain-hint check and the hinted codomain agree: the check passes
    exactly when there is a return hint, which is then the hinted codomain,
    and it raises exactly when there is none, in which case the hinted
    codomain is [inspect.Signature.empty]. *)
Theorem codomain_hint_check_agrees_with_hinted_codomain :
  forall (func : Callable) (parameters : list (string * ParamKind)),
    c_wrapped func = None -> c_func func = None ->
    c_composed_codomain_hint func = None ->
    c_signature func = Some parameters ->
    (_is_codomain_hinted (reflected func parameters) = Returns true
     <-> exists h,
          c_type_hints func !! "return" = Some h /\ _hinted_codomain func = h)
    /\ (_is_codomain_hinted (reflected func parameters)
        = Raises (Missing_return_hint (c_name func))
        <-> c_type_hints func !! "return" = None)
    /\ (c_type_hints func !! "return" = None -> _hinted_codomain func = empty_).
Proof.
  intros func parameters Hw Hf Hc Hs.
  pose proof (_get_original_func_fixed func Hw Hf) as Ho.
  unfold _is_codomain_hinted, _hinted_codomain, hint_or_empty, reflected.
  cbn [f_type_hints f_name]. rewrite Ho, Hc, Hs.
  destruct (c_type_hints func !! "return") as [h |].
  - split; [| split].
    + split; [intros _; now exists h | reflexivity].
    + split; discriminate.
    + discriminate.
  - split; [| split].
    + split; [discriminate | intros [h [H _]]; discriminate].
    + split; reflexivity.
    + reflexivity.
Qed.

Lemma codomain_hint_check_agrees_witness :
  (_is_codomain_hinted
     (reflected plain_f
        [("a", POSITIONAL_OR_KEYWORD); ("b", POSITIONAL_OR_KEYWORD)])
   = Returns true
   <-> exists h,
        c_type_hints plain_f !! "return" = Some h /\ _hinted_codomain plain_f = h).
Proof.
  refine (proj1 (codomain_hint_check_agrees_with_hinted_codomain plain_f
                   [("a", POSITIONAL_OR_KEYWORD); ("b", POSITIONAL_OR_KEYWORD)]
                   _ _ _ _)); reflexivity.
Defined.

(** X10: a callable without return hint is never codomain-checked: when the
    original has no composed codomain and has no return hint, or its
    signature cannot be read, the hinted codomain is
    [inspect.Signature.empty] and the codomain check accepts every result. *)
Theorem unhinted_codomain_accepts_every_result :
  forall (func : Callable) (f : Func) (actual : Descr) (result : PyVal)
         (allow : bool),
    c_composed_codomain_hint (_get_original_func func) = None ->
    (c_type_hints (_get_original_func func) !! "return" = None
     \/ c_signature (_get_original_func func) = None) ->
    _hinted_codomain func = empty_
    /\ _check_codomain f (_hinted_codomain func) actual result allow = Ok tt.
Proof.
  intros func f actual result allow Hc H.
  assert (E : _hinted_codomain func = empty_).
  { unfold _hinted_codomain, hint_or_empty. rewrite Hc.
    destruct H as [H | H]; rewrite H;
      now destruct (c_signature (_get_original_func func)). }
  split; [exact E |]. now rewrite E.
Qed.

Lemma unhinted_codomain_witness :
  _hinted_codomain variadic_g = empty_
  /\ _check_codomain f_pos_pos (_hinted_codomain variadic_g) str_
       (VStr "anything") true
     = Ok tt.
Proof.
  apply (unhinted_codomain_accepts_every_result variadic_g f_pos_pos str_
           (VStr "anything") true);
    [reflexivity | left; reflexivity].
Defined.

(** ** Positions in the domain check *)

Lemma index_after_prefix (pre rest : list string) (name : string) :
  ~ In name pre -> index (pre ++ name :: rest) name = Ok (length pre).
Proof.
  induction pre as [| p pre IH]; intros Hn; simpl.
  - now rewrite String.eqb_refl.
  - destruct (String.eqb p name) eqn:E.
    + apply String.eqb_eq in E. exfalso. apply Hn. now left.
    + rewrite IH; [reflexivity |]. intros Hin. apply Hn. now right.
Qed.

Lemma index_app_l (names more : list string) (name : string) :
  In name names -> index (names ++ more) name = index names name.
Proof.
  induction names as [| p names IH]; intros Hin; [destruct Hin |].
  simpl. destruct (String.eqb p name) eqn:E; [reflexivity |].
  destruct Hin as [-> | Hin]; [now rewrite String.eqb_refl in E |].
  now rewrite IH.
Qed.

Lemma skipn_nth_error {A : Type} (l : list A) (k : nat) (v : A) :
  nth_error l k = Some v -> skipn k l = v :: skipn (S k) l.
Proof.
  revert k. induction l as [| a l IH]; intros [| k] H; try discriminate.
  - now injection H as ->.
  - simpl in H |- *. now apply IH.
Qed.

(** With distinct parameter names, the loop of [_check_domain] reads the
    arguments one position after the other, and stops with [IndexError] at
    the first position without argument. *)
Lemma domain_loop_positional (rest : list string) :
  forall (pre : list string) (expected : list Descr) (args : list PyVal)
         (acc : list Line),
    List.NoDup (pre ++ rest) -> (length pre <= length args)%nat ->
    domain_loop (pre ++ rest) args (combine rest expected) acc =
    if (length pre + length (combine rest expected) <=? length args)%nat then
      Ok (acc ++ flat_map
                   (fun pv => domain_mismatches (fst (fst pv)) (snd (fst pv)) (snd pv))
                   (combine (combine rest expected) (skipn (length pre) args)))
    else Raise IndexError.
Proof.
  induction rest as [| name rest IH]; intros pre expected args acc Hnd Hlen.
  - cbn [combine domain_loop length flat_map]. rewrite Nat.add_0_r.
    apply Nat.leb_le in Hlen. rewrite Hlen. now rewrite app_nil_r.
  - destruct expected as [| t expected].
    + cbn [combine domain_loop length flat_map]. rewrite Nat.add_0_r.
      apply Nat.leb_le in Hlen. rewrite Hlen. now rewrite app_nil_r.
    + cbn [combine domain_loop length].
      rewrite index_after_prefix.
      2:{ intros Hin. apply (List.NoDup_remove_2 _ _ _ Hnd).
          apply in_or_app. now left. }
      cbn [bind]. unfold subscript.
      destruct (nth_error args (length pre)) as [v |] eqn:Hv; cbn [bind].
      * assert (Hlt : (length pre < length args)%nat).
        { apply nth_error_Some. congruence. }
        replace (pre ++ name :: rest) with ((pre ++ [name]) ++ rest)
          by (now rewrite <- app_assoc).
        rewrite IH.
        -- rewrite length_app. cbn [length].
           replace (length pre + 1 + length (combine rest expected))%nat
             with (length pre + S (length (combine rest expected)))%nat by lia.
           destruct (_ <=? _)%nat; [| reflexivity].
           rewrite (skipn_nth_error args (length pre) v Hv).
           cbn [combine flat_map fst snd].
           replace (length pre + 1)%nat with (S (length pre)) by lia.
           now rewrite app_assoc.
        -- now rewrite <- app_assoc.
        -- rewrite length_app. cbn [length]. lia.
      * apply nth_error_None in Hv.
        destruct (_ <=? _)%nat eqn:E; [| reflexivity].
        apply Nat.leb_le in E. lia.
Qed.

(** X11: with distinct parameter names and an argument for every pair of
    name and expected descriptor, the domain check tests the parameter at
    position [i] against the argument at position [i]: the diagnostic is the
    concatenation, in order, of the lines of each position, and the check
    passes exactly when no position contributes a line. *)
Theorem domain_check_pairs_parameters_with_arguments_by_position :
  forall (func : Func) (param_names : list string)
         (expected_domain actual_domain : list Descr) (args : list PyVal)
         (allow : bool),
    List.NoDup param_names ->
    (length (combine param_names expected_domain) <= length args)%nat ->
    _check_domain func param_names expected_domain actual_domain args allow
    = match
        flat_map
          (fun pv => domain_mismatches (fst (fst pv)) (snd (fst pv)) (snd pv))
          (combine (combine param_names expected_domain) args)
      with
      | [] => Ok tt
      | line :: lines =>
          Raise (TypeError (DomainMismatch (f_name func) (line :: lines)))
      end.
Proof.
  intros func names expected ad args allow Hnd Hlen. unfold _check_domain.
  pose proof (domain_loop_positional names [] expected args [] Hnd) as H.
  cbn [length Nat.add skipn app] in H. rewrite H by lia.
  apply Nat.leb_le in Hlen. rewrite Hlen.
  cbn [bind app]. now destruct (flat_map _ _).
Qed.

Lemma domain_check_by_position_witness :
  _check_domain f_pos_pos ["a"; "b"] [int_; str_] [] [VStr "x"; VInt 1] true
  = match
      flat_map
        (fun pv => domain_mismatches (fst (fst pv)) (snd (fst pv)) (snd pv))
        (combine (combine ["a"; "b"] [int_; str_]) [VStr "x"; VInt 1])
    with
    | [] => Ok tt
    | line :: lines => Raise (TypeError (DomainMismatch (f_name f_pos_pos) (line :: lines)))
    end.
Proof.
  apply (domain_check_pairs_parameters_with_arguments_by_position f_pos_pos
           ["a"; "b"] [int_; str_] [] [VStr "x"; VInt 1] true).
  - repeat constructor; simpl; intuition discriminate.
  - simpl. lia.
Defined.

(** X12: with distinct parameter names, a call that supplies fewer
    positional arguments than there are pairs of name and expected
    descriptor makes the domain check raise [IndexError], whatever the
    supplied arguments are: no domain diagnostic is produced, even when an
    earlier argument violates its descriptor. *)
Theorem domain_check_raises_index_error_on_missing_argument :
  forall (func : Func) (param_names : list string)
         (expected_domain actual_domain : list Descr) (args : list PyVal)
         (allow : bool),
    List.NoDup param_names ->
    (length args < length (combine param_names expected_domain))%nat ->
    _check_domain func param_names expected_domain actual_domain args allow
    = Raise IndexError.
Proof.
  intros func names expected ad args allow Hnd Hlen. unfold _check_domain.
  pose proof (domain_loop_positional names [] expected args [] Hnd) as H.
  cbn [length Nat.add skipn app] in H. rewrite H by lia.
  destruct (_ <=? _)%nat eqn:E; [| reflexivity].
  apply Nat.leb_le in E. lia.
Qed.

Lemma domain_check_missing_argument_witness :
  _check_domain f_pos_pos ["a"; "b"] [int_; str_] [] [VStr "x"] true
  = Raise IndexError.
Proof.
  apply (domain_check_raises_index_error_on_missing_argument f_pos_pos
           ["a"; "b"] [int_; str_] [] [VStr "x"] true).
  - repeat constructor; simpl; intuition discriminate.
  - simpl. lia.
Defined.

Lemma combine_app_shorter {A B : Type} (l more : list A) (l' : list B) :
  (length l' <= length l)%nat -> combine (l ++ more) l' = combine l l'.
Proof.
  revert l'. induction l as [| a l IH]; intros [| b l'] H; simpl in *;
    try reflexivity; try lia.
  - now destruct more.
  - rewrite IH; [reflexivity | lia].
Qed.

Lemma domain_loop_more_names (names more : list string) (args : list PyVal)
    (pairs : list (string * Descr)) (acc : list Line) :
  Forall (fun p => In (fst p) names) pairs ->
  domain_loop (names ++ more) args pairs acc = domain_loop names args pairs acc.
Proof.
  intros HF. revert acc. induction HF as [| [name t] pairs Hin _ IH]; intros acc.
  - reflexivity.
  - cbn [domain_loop]. cbn [fst] in Hin. rewrite (index_app_l names more name Hin).
    destruct (index names name) as [i |]; cbn [bind]; [| reflexivity].
    destruct (subscript args i); cbn [bind]; [apply IH | reflexivity].
Qed.

Lemma combine_fst_In {A B : Type} (l : list A) (l' : list B) :
  Forall (fun p => In (fst p) l) (combine l l').
Proof.
  apply List.Forall_forall. intros [a b] Hin. exact (in_combine_l _ _ _ _ Hin).
Qed.

(** X13: the domain check only looks at as many parameters as there are
    expected descriptors: parameter names beyond them are never looked up
    and change nothing, and with no expected descriptor at all the check
    passes for any arguments. *)
Theorem domain_check_ignores_parameters_without_expected_descriptor :
  forall (func : Func) (param_names more : list string)
         (expected_domain actual_domain : list Descr) (args : list PyVal)
         (allow : bool),
    (length expected_domain <= length param_names)%nat ->
    _check_domain func (param_names ++ more) expected_domain actual_domain args allow
    = _check_domain func param_names expected_domain actual_domain args allow
    /\ _check_domain func (param_names ++ more) [] actual_domain args allow = Ok tt.
Proof.
  intros func names more expected ad args allow Hlen. split.
  - unfold _check_domain. rewrite (combine_app_shorter names more expected Hlen).
    rewrite domain_loop_more_names; [reflexivity | apply combine_fst_In].
  - unfold _check_domain. now rewrite combine_nil.
Qed.

Lemma domain_check_ignores_parameters_witness :
  _check_domain f_pos_pos (["a"] ++ ["b"]) [int_] [] [VInt 1; VStr "x"] true
  = _check_domain f_pos_pos ["a"] [int_] [] [VInt 1; VStr "x"] true
  /\ _check_domain f_pos_pos (["a"] ++ ["b"]) [] [] [VInt 1; VStr "x"] true = Ok tt.
Proof.
  apply (domain_check_ignores_parameters_without_expected_descriptor f_pos_pos
           ["a"] ["b"] [int_] [] [VInt 1; VStr "x"] true).
  simpl. lia.
Defined.

(** ** Codomains that are not unions *)

(** X14: for a declared codomain that is not a union (and not the wildcard
    or the empty marker): when it is a class, the codomain check accepts a
    result exactly when the result is an instance, the subclass flag is on or
    the reported result type is the declared codomain itself, and the check
    of the descriptor, if it has one, passes; when it is not a class, it
    accepts exactly the instances, and neither the flag nor a check is
    consulted. *)
Theorem non_union_codomain_acceptance :
  forall (func : Func) (t actual : Descr) (x : PyVal) (allow : bool),
    d_id t <> c_Any -> d_id t <> c_empty -> union_types_of t = None ->
    (d_is_type t = true ->
     (_check_codomain func t actual x allow = Ok tt <->
      d_instancecheck t x = true
      /\ (allow = true \/ is_ actual t = true)
      /\ check_fails t x = false))
    /\ (d_is_type t = false ->
        (_check_codomain func t actual x allow = Ok tt <->
         d_instancecheck t x = true)).
Proof.
  intros func t actual x allow HA HE Hu. unfold _check_codomain.
  destruct (cid_eqb (d_id t) c_Any) eqn:H1; [now apply cid_eqb_eq in H1 |].
  destruct (cid_eqb (d_id t) c_empty) eqn:H2; [now apply cid_eqb_eq in H2 |].
  cbn [orb]. rewrite Hu. split; intros Ht; rewrite Ht.
  - destruct (d_instancecheck t x); [| split; [discriminate | intros [? _]; discriminate]].
    destruct allow; cbn [orb negb andb].
    + destruct (check_fails t x); split; try discriminate; auto.
      intros (_ & _ & ?). discriminate.
    + destruct (is_ actual t).
      * destruct (check_fails t x); split; try discriminate; auto.
        intros (_ & _ & ?). discriminate.
      * split; [discriminate |]. intros (_ & [? | ?] & _); discriminate.
  - destruct (d_instancecheck t x); cbn [negb]; split; try discriminate; auto.
Qed.

Lemma non_union_codomain_acceptance_witness :
  (d_is_type int_ = true ->
   (_check_codomain f_pos_pos int_ bool_ (VBool true) false = Ok tt <->
    d_instancecheck int_ (VBool true) = true
    /\ (false = true \/ is_ bool_ int_ = true)
    /\ check_fails int_ (VBool true) = false))
  /\ (d_is_type int_ = false ->
      (_check_codomain f_pos_pos int_ bool_ (VBool true) false = Ok tt <->
       d_instancecheck int_ (VBool true) = true)).
Proof.
  apply (non_union_codomain_acceptance f_pos_pos int_ bool_ (VBool true) false);
    [discriminate | discriminate | reflexivity].
Defined.

(** ** The wildcard metaclass *)

(** X15: a class created by the metaclass [__Any], without [__types__] and
    without [check], matches everything: as an expected parameter type it
    never contributes a line to the domain diagnostic, as a declared
    codomain it accepts every result (with the subclass flag on), and a
    union that has it among its constituents always finds a nominal match. *)
Theorem wildcard_class_matches_every_value :
  forall (id : ClassId) (nm : string) (display : option string)
         (bases : list Descr) (func : Func) (name : string) (actual : Descr)
         (x : PyVal) (types : list Descr),
    domain_mismatches name (Any_metaclass_class id nm display bases None None) x = []
    /\ _check_codomain func (Any_metaclass_class id nm display bases None None)
         actual x true = Ok tt
    /\ (In (Any_metaclass_class id nm display bases None None) types ->
        existsb (fun t => d_instancecheck t x) types = true).
Proof.
  intros id nm display bases func name actual x types. split; [| split].
  - reflexivity.
  - unfold _check_codomain. cbn.
    now destruct (cid_eqb id c_Any || cid_eqb id c_empty).
  - intros Hin. apply existsb_exists. eexists. split; [exact Hin | reflexivity].
Qed.

(** ** Failures of the null-object generator *)

Lemma mapM_Raise {A B : Type} (f : A -> Res B) (l : list A) (e : Exn) :
  mapM f l = Raise e -> exists a, In a l /\ f a = Raise e.
Proof.
  induction l as [| a l IH]; [discriminate |].
  cbn [mapM]. destruct (f a) as [b | e'] eqn:Ha; cbn [bind].
  - fold (mapM f). destruct (mapM f l) as [bs | e''] eqn:Hl; cbn [bind];
      [discriminate |].
    intros [= <-]. destruct (IH eq_refl) as [a' [Hin Hf]].
    exists a'. split; [now right | exact Hf].
  - intros [= <-]. exists a. split; [now left | exact Ha].
Qed.

(** X16: for a descriptor that is a class, as is every descriptor of its
    [__types__] at every level of nesting (the descriptors the factories
    build: hashable classes whose [__types__] is a tuple), the null-object
    generator can only fail in one way: when it returns no value, the error
    is the [TypeError] raised for building a one-element set around an
    unhashable null object (a list, set or dict, or a tuple holding one). *)
Theorem null_object_fails_only_on_unhashable_set_element :
  forall (typ : Descr) (e : Exn),
    all_classes typ = true ->
    _get_null_object typ = Raise e ->
    exists v, e = TypeError (Unhashable v) /\ hashable v = false.
Proof.
  intros typ e _. revert e.
  induction typ as [d IH] using Descr_types_ind. intros e Hn.
  destruct d as [tid tis tnm trp tdsp tbases ttypes tchk tinst].
  cbn [_get_null_object d_bases d_types d_id d_name] in Hn.
  cbn [d_types] in IH.
  assert (Hfallback :
            forall r : Res PyVal,
              r = match nulls_get _builtin_nulls tid with
                  | Some null => Ok null
                  | None => Ok VNone
                  end -> r = Raise e -> False).
  { intros r -> H. destruct (nulls_get _builtin_nulls tid); discriminate. }
  destruct tbases as [bases |]; [| exfalso; exact (Hfallback _ eq_refl Hn)].
  destruct ttypes as [[| t0 ts] |].
  - repeat match type of Hn with
           | (if ?c then _ else _) = _ => destruct c
           end; try discriminate. exfalso. exact (Hfallback _ eq_refl Hn).
  - pose proof (IH (t0 :: ts) eq_refl) as HF.
    assert (H0 : forall e0, _get_null_object t0 = Raise e0 ->
                            exists v, e0 = TypeError (Unhashable v)
                                      /\ hashable v = false).
    { inversion HF; subst; assumption. }
    destruct (in_ list_ bases).
    { destruct (_get_null_object t0) as [v |] eqn:E0; cbn [bind] in Hn;
        [discriminate | injection Hn as <-; now apply H0]. }
    destruct (in_ tuple_ bases).
    { destruct (name_startswith _ _); [| discriminate].
      destruct (mapM _get_null_object (t0 :: ts)) as [vs | e0] eqn:Em;
        cbn [bind] in Hn; [discriminate |]. injection Hn as <-.
      destruct (mapM_Raise _ _ _ Em) as [a [Hin Ha]].
      rewrite List.Forall_forall in HF. exact (HF a Hin e0 Ha). }
    destruct (in_ set_ bases).
    { destruct (_get_null_object t0) as [v |] eqn:E0; cbn [bind] in Hn;
        [| injection Hn as <-; now apply H0].
      destruct (hashable v) eqn:Hh; [discriminate |].
      injection Hn as <-. now exists v. }
    destruct (in_ dict_ bases).
    { destruct (_get_null_object t0) as [v |] eqn:E0; cbn [bind] in Hn;
        [| injection Hn as <-; now apply H0].
      repeat match type of Hn with
             | (if ?c then _ else _) = _ => destruct c
             end; discriminate. }
    exfalso. exact (Hfallback _ eq_refl Hn).
  - repeat match type of Hn with
           | (if ?c then _ else _) = _ => destruct c
           end; try discriminate. exfalso. exact (Hfallback _ eq_refl Hn).
Qed.

Lemma null_object_failure_witness :
  exists v,
    TypeError (Unhashable (VList [VInt 0])) = TypeError (Unhashable v)
    /\ hashable v = false.
Proof.
  apply (null_object_fails_only_on_unhashable_set_element SetListInt);
    reflexivity.
Defined.

(** ** The failed constituent of a union codomain *)

Lemma codomain_union_loop_first (fname : string) (e a : option string)
    (x : PyVal) (pre post : list Descr) (t : Descr) :
  Forall (fun p => d_instancecheck p x && check_fails p x = false) pre ->
  d_instancecheck t x = true -> check_fails t x = true ->
  codomain_union_loop fname e a x (pre ++ t :: post)
  = Raise (TypeError (CodomainMismatch fname
      [L_failed_check; L_value x; L_expected e; L_received a;
       L_failed (_get_type_display_name t)])).
Proof.
  intros Hpre Hi Hc. induction Hpre as [| p pre Hp _ IH]; simpl.
  - now rewrite Hi, Hc.
  - now rewrite Hp.
Qed.

(** X19: when a result matches constituents of a union codomain nominally
    and the check of one of them fails, the codomain check raises a single
    diagnostic, whose failed type is the first constituent, in declaration
    order, that matches the result and whose check rejects it; later
    constituents are not examined. *)
Theorem union_codomain_reports_first_failing_constituent :
  forall (func : Func) (u actual : Descr) (pre post : list Descr) (t : Descr)
         (x : PyVal) (allow : bool),
    d_id u <> c_Any -> d_id u <> c_empty ->
    union_types_of u = Some (pre ++ t :: post) ->
    Forall (fun p => d_instancecheck p x && check_fails p x = false) pre ->
    d_instancecheck t x = true -> check_fails t x = true ->
    _check_codomain func u actual x allow
    = Raise (TypeError (CodomainMismatch (f_name func)
        [L_failed_check; L_value x;
         L_expected (_get_type_display_name u);
         L_received (_get_type_display_name actual);
         L_failed (_get_type_display_name t)])).
Proof.
  intros func u actual pre post t x allow HA HE Hu Hpre Hi Hc.
  unfold _check_codomain.
  destruct (cid_eqb (d_id u) c_Any) eqn:H1; [now apply cid_eqb_eq in H1 |].
  destruct (cid_eqb (d_id u) c_empty) eqn:H2; [now apply cid_eqb_eq in H2 |].
  cbn [orb]. rewrite Hu.
  assert (Hex : existsb (fun union_type => d_instancecheck union_type x)
                  (pre ++ t :: post) = true).
  { apply existsb_exists. exists t. split; [| exact Hi].
    apply in_or_app. right. now left. }
  rewrite Hex. now apply codomain_union_loop_first.
Qed.

Lemma union_codomain_first_failing_witness :
  _check_codomain f_pos_pos IntOrPos int_ (VInt (-1)) true
  = Raise (TypeError (CodomainMismatch (f_name f_pos_pos)
      [L_failed_check; L_value (VInt (-1));
       L_expected (_get_type_display_name IntOrPos);
       L_received (_get_type_display_name int_);
       L_failed (_get_type_display_name Pos)])).
Proof.
  apply (union_codomain_reports_first_failing_constituent f_pos_pos IntOrPos
           int_ [int_] [] Pos (VInt (-1)) true);
    [discriminate | discriminate | reflexivity | | reflexivity | reflexivity].
  repeat constructor.
Defined.

(** ** Independence of the two hint checks *)

(** X20: the domain-hint check does not depend on the return hint, and the
    codomain-hint check does not depend on the hints of the parameters:
    adding, replacing or removing the one leaves the other check unchanged
    (no parameter is called [return]). *)
Theorem hint_checks_are_independent :
  forall (nm : string) (parameters : list string) (hints : gmap string Descr)
         (p : string) (h : Descr),
    ~ In "return" parameters -> p <> "return" ->
    _is_domain_hinted (mkFunc nm parameters (<["return" := h]> hints))
    = _is_domain_hinted (mkFunc nm parameters hints)
    /\ _is_domain_hinted (mkFunc nm parameters (delete "return" hints))
       = _is_domain_hinted (mkFunc nm parameters hints)
    /\ _is_codomain_hinted (mkFunc nm parameters (<[p := h]> hints))
       = _is_codomain_hinted (mkFunc nm parameters hints)
    /\ _is_codomain_hinted (mkFunc nm parameters (delete p hints))
       = _is_codomain_hinted (mkFunc nm parameters hints).
Proof.
  intros nm parameters hints p h Hr Hp.
  assert (Hsame : forall hints' : gmap string Descr,
             (forall q, In q parameters -> hints' !! q = hints !! q) ->
             _is_domain_hinted (mkFunc nm parameters hints')
             = _is_domain_hinted (mkFunc nm parameters hints)).
  { intros hints' Hq. rewrite !_is_domain_hinted_unhinted. unfold unhinted.
    cbn [f_parameters f_type_hints f_name].
    replace (List.filter
               (fun q => match hints' !! q with None => true | Some _ => false end)
               parameters)
      with (List.filter
              (fun q => match hints !! q with None => true | Some _ => false end)
              parameters); [reflexivity |].
    apply filter_ext_in. intros q Hin. now rewrite (Hq q Hin). }
  split; [| split; [| split]].
  - apply Hsame. intros q Hin. apply lookup_insert_ne. intros <-. now apply Hr.
  - apply Hsame. intros q Hin. apply lookup_delete_ne. intros <-. now apply Hr.
  - unfold _is_codomain_hinted. cbn [f_type_hints f_name].
    now rewrite lookup_insert_ne.
  - unfold _is_codomain_hinted. cbn [f_type_hints f_name].
    now rewrite lookup_delete_ne.
Qed.

Lemma hint_checks_are_independent_witness :
  _is_domain_hinted (mkFunc "f" ["a"] (<["return" := int_]> ∅))
  = _is_domain_hinted (mkFunc "f" ["a"] ∅)
  /\ _is_domain_hinted (mkFunc "f" ["a"] (delete "return" ∅))
     = _is_domain_hinted (mkFunc "f" ["a"] ∅)
  /\ _is_codomain_hinted (mkFunc "f" ["a"] (<["a" := int_]> ∅))
     = _is_codomain_hinted (mkFunc "f" ["a"] ∅)
  /\ _is_codomain_hinted (mkFunc "f" ["a"] (delete "a" ∅))
     = _is_codomain_hinted (mkFunc "f" ["a"] ∅).
Proof.
  apply (hint_checks_are_independent "f" ["a"] ∅ "a" int_).
  - simpl. intuition discriminate.
  - discriminate.
Defined.

(** ** Structural descriptors *)

Lemma Attr_instancecheck_forallb (hasattr : PyVal -> string -> bool)
    (attrs : list string) (v : PyVal) :
  Attr_instancecheck hasattr (Some attrs) v = forallb (hasattr v) attrs.
Proof. now destruct attrs. Qed.

(** X17: a value is an instance of the class returned by [Attr] exactly
    when it has every one of the listed attributes; with the empty list
    every value is an instance; a single name given as a string is the same
    as the one-element list; requiring two lists together is requiring each;
    and an argument that is neither a string nor a list is refused. *)
Theorem structural_membership_is_presence_of_every_attribute :
  forall (hasattr : PyVal -> string -> bool) (n : nat)
         (attrs more : list string) (s : string) (v : PyVal),
    (exists d,
        Attr hasattr n (A_list attrs) = Returns d
        /\ (d_instancecheck d v = true <->
            forall a, In a attrs -> hasattr v a = true))
    /\ (exists d,
           Attr hasattr n (A_list []) = Returns d /\ d_instancecheck d v = true)
    /\ Attr hasattr n (A_str s) = Attr hasattr n (A_list [s])
    /\ (exists d1 d2 d12,
           Attr hasattr n (A_list attrs) = Returns d1
           /\ Attr hasattr n (A_list more) = Returns d2
           /\ Attr hasattr n (A_list (attrs ++ more)) = Returns d12
           /\ d_instancecheck d12 v = d_instancecheck d1 v && d_instancecheck d2 v)
    /\ Attr hasattr n A_other = Raises Attr_argument.
Proof.
  intros hasattr n attrs more s v. split; [| split; [| split; [| split]]].
  - eexists. split; [reflexivity |]. cbn [d_instancecheck].
    rewrite Attr_instancecheck_forallb. apply forallb_forall.
  - eexists. split; reflexivity.
  - reflexivity.
  - do 3 eexists. repeat (split; [reflexivity |]). cbn [d_instancecheck].
    rewrite !Attr_instancecheck_forallb. apply forallb_app.
  - reflexivity.
Qed.

Lemma prefix_append (p s : string) : String.prefix p (p ++ s) = true.
Proof.
  induction p as [| c p IH]; [now destruct s |].
  simpl. destruct (ascii_dec c c) as [_ | Hne]; [exact IH | now destruct Hne].
Qed.

(** X18: the class returned by [Attr] has a name that starts with [Attr],
    so the display-name resolver has no name for it; it carries neither
    [__types__] nor [check]; its null object is [None], and [None] is
    recognised as its null because the base class [Attr__] accepts every
    value. *)
Theorem structural_descriptor_in_the_helper :
  forall (hasattr : PyVal -> string -> bool) (n : nat) (arg : AttrArg) (d : Descr),
    Attr hasattr n arg = Returns d ->
    (exists nm, d_name d = Some nm /\ String.prefix "Attr" nm = true)
    /\ _get_type_display_name d = None
    /\ union_types_of d = None
    /\ d_check d = None
    /\ _get_null_object d = Ok VNone
    /\ _is_null_of_type VNone d = Ok true.
Proof.
  intros hasattr n arg d H.
  assert (Hd : exists attrs,
             d = {| d_id := c_user (S n); d_is_type := true;
                    d_name := Some (attr_type_name attrs);
                    d_repr := "<class '" ++ attr_type_name attrs ++ "'>";
                    d_display := None;
                    d_bases := Some [Attr__ hasattr n]; d_types := None;
                    d_check := None;
                    d_instancecheck := Attr_instancecheck hasattr (Some attrs) |}).
  { destruct arg as [s | l |]; cbn in H; [| | discriminate];
      injection H as <-; eexists; reflexivity. }
  destruct Hd as [attrs ->].
  split; [| split; [| split; [| split; [| split]]]].
  - eexists. split; [reflexivity |]. unfold attr_type_name. apply prefix_append.
  - unfold _get_type_display_name, name_or_repr, attr_type_name.
    cbn [d_display d_name]. reflexivity.
  - reflexivity.
  - reflexivity.
  - reflexivity.
  - reflexivity.
Qed.

Lemma structural_descriptor_witness :
  (exists nm,
      d_name (mk_class 1 "AttrLen" None [Attr__ (fun _ _ => true) 0] None None
                (Attr_instancecheck (fun _ _ => true) (Some ["__len__"])))
      = Some nm
      /\ String.prefix "Attr" nm = true)
  /\ _get_type_display_name
       (mk_class 1 "AttrLen" None [Attr__ (fun _ _ => true) 0] None None
          (Attr_instancecheck (fun _ _ => true) (Some ["__len__"]))) = None
  /\ union_types_of
       (mk_class 1 "AttrLen" None [Attr__ (fun _ _ => true) 0] None None
          (Attr_instancecheck (fun _ _ => true) (Some ["__len__"]))) = None
  /\ d_check
       (mk_class 1 "AttrLen" None [Attr__ (fun _ _ => true) 0] None None
          (Attr_instancecheck (fun _ _ => true) (Some ["__len__"]))) = None
  /\ _get_null_object
       (mk_class 1 "AttrLen" None [Attr__ (fun _ _ => true) 0] None None
          (Attr_instancecheck (fun _ _ => true) (Some ["__len__"]))) = Ok VNone
  /\ _is_null_of_type VNone
       (mk_class 1 "AttrLen" None [Attr__ (fun _ _ => true) 0] None None
          (Attr_instancecheck (fun _ _ => true) (Some ["__len__"]))) = Ok true.
Proof.
  apply (structural_descriptor_in_the_helper (fun _ _ => true) 0 (A_str "__len__")).
  reflexivity.
Defined.
